(** * rdp2tcp payload tools: exe_to_ps1.py and exe_to_xte_script_ps1.py

    Shallow embedding of the dropper generator ([compress_and_encode],
    [generate_powershell_script]), of the keystroke synthesizer
    ([encode_xte]) and of the two [main] drivers of src/tools.

    Representation choices:
    - a byte is a [Z] in [0, 256); a byte string is [list Z];
    - a Python [str] is a list of Unicode code points, [list N];
    - the first model of [encode_xte] computes with exact rationals [Q]
      ([int(x)] as [Z.quot] of numerator by denominator): it serves the
      properties of the shape of the output, where the sleep values play
      no part; module [Py] computes with IEEE-754 doubles and raises the
      exceptions of the program, and serves the timing and the drivers;
    - zlib's raw DEFLATE coder and the target's [DeflateStream] decoder are
      library code: they are passed in as functions, the zlib container
      around them (2-byte header, Adler-32 trailer) is written out. *)

From Stdlib Require Import ZArith QArith List String Ascii Bool Lia.
From Stdlib Require Import PrimFloat FloatOps SpecFloat.
Import ListNotations.
Open Scope Z_scope.
(** Python's float literals such as [0.05] are read as the nearest double,
    as Python reads them. *)
Set Warnings "-inexact-float".

(** ** Characters *)

(** A Rocq string literal as a list of code points. *)
Fixpoint of_string (s : string) : list N :=
  match s with
  | EmptyString => []
  | String a r => N.of_nat (nat_of_ascii a) :: of_string r
  end.

Definition dquote : N := 34%N.

(** ** Base64 (Python [base64.b64encode], .NET [Convert.FromBase64String]) *)

(** The character of a sextet, alphabet [A-Za-z0-9+/]. *)
Definition sym (n : Z) : N :=
  if n <? 26 then Z.to_N (65 + n)
  else if n <? 52 then Z.to_N (97 + (n - 26))
  else if n <? 62 then Z.to_N (48 + (n - 52))
  else if n =? 62 then 43%N else 47%N.

(** The sextet of a character, [None] outside the alphabet. *)
Definition val (c : N) : option Z :=
  let z := Z.of_N c in
  if (65 <=? z) && (z <=? 90) then Some (z - 65)
  else if (97 <=? z) && (z <=? 122) then Some (z - 97 + 26)
  else if (48 <=? z) && (z <=? 57) then Some (z - 48 + 52)
  else if z =? 43 then Some 62
  else if z =? 47 then Some 63
  else None.

Definition pad : N := 61%N.

Fixpoint b64encode (l : list Z) : list N :=
  match l with
  | a :: b :: c :: rest =>
      sym (a / 4) :: sym ((a mod 4) * 16 + b / 16)
        :: sym ((b mod 16) * 4 + c / 64) :: sym (c mod 64) :: b64encode rest
  | [a; b] =>
      [sym (a / 4); sym ((a mod 4) * 16 + b / 16); sym ((b mod 16) * 4); pad]
  | [a] => [sym (a / 4); sym ((a mod 4) * 16); pad; pad]
  | [] => []
  end.

Definition is_nil {A} (l : list A) : bool :=
  match l with [] => true | _ => false end.

(** Strict decoder of groups of four characters; '=' padding only in the
    last group. *)
Fixpoint b64decode (s : list N) : option (list Z) :=
  match s with
  | [] => Some []
  | c1 :: c2 :: c3 :: c4 :: rest =>
      match val c1, val c2 with
      | Some s1, Some s2 =>
          if (c3 =? pad)%N && (c4 =? pad)%N && is_nil rest then
            Some [s1 * 4 + s2 / 16]
          else
            match val c3 with
            | Some s3 =>
                if (c4 =? pad)%N && is_nil rest then
                  Some [s1 * 4 + s2 / 16; (s2 mod 16) * 16 + s3 / 4]
                else
                  match val c4, b64decode rest with
                  | Some s4, Some r =>
                      Some (s1 * 4 + s2 / 16 :: (s2 mod 16) * 16 + s3 / 4
                              :: (s3 mod 4) * 64 + s4 :: r)
                  | _, _ => None
                  end
            | None => None
            end
      | _, _ => None
      end
  | _ => None
  end.

(** ** zlib container ([zlib.compress(data, level=9)]) *)

Definition byte_range (b : Z) : Prop := 0 <= b < 256.

Definition adler_base : Z := 65521.

Definition adler32 (data : list Z) : Z :=
  let '(a, b) :=
    fold_left (fun '(a, b) x => let a' := (a + x) mod adler_base in
                                (a', (b + a') mod adler_base)) data (1, 0) in
  b * 65536 + a.

Definition be32 (n : Z) : list Z :=
  [(n / 16777216) mod 256; (n / 65536) mod 256; (n / 256) mod 256; n mod 256].

(** Header for level 9: CMF = 0x78 (deflate, 32K window), FLG = 0xDA
    (FLEVEL = 3, no dictionary, FCHECK making 0x78DA a multiple of 31). *)
Definition zlib_header : list Z := [120; 218].

Definition zlib_compress (raw_deflate : list Z -> list Z) (data : list Z)
  : list Z :=
  zlib_header ++ raw_deflate data ++ be32 (adler32 data).

(** [compress_and_encode] of both scripts. *)
Definition compress_and_encode (raw_deflate : list Z -> list Z)
  (data : list Z) : list N :=
  b64encode (zlib_compress raw_deflate data).

(** The decoding half of the generated PowerShell script:
    [FromBase64String], [$ms.Write($compressed, 2, $compressed.Length - 2)],
    then [DeflateStream] decompression of the stream. *)
Definition target_decode (raw_inflate : list Z -> list Z) (b64 : list N)
  : option (list Z) :=
  match b64decode b64 with
  | Some compressed => Some (raw_inflate (skipn 2 compressed))
  | None => None
  end.

(** A concrete raw DEFLATE coder: one stored block (BTYPE = 00) per byte,
    LEN = 1, NLEN = 0xFFFE, closed by an empty final stored block; and the
    decoder of that block shape, which stops at the final block and leaves
    the bytes after it unread, as [DeflateStream] does with zlib's trailer. *)
Fixpoint deflate_stored (data : list Z) : list Z :=
  match data with
  | [] => [1; 0; 0; 255; 255]
  | x :: r => 0 :: 1 :: 0 :: 254 :: 255 :: x :: deflate_stored r
  end.

Fixpoint inflate_stored (s : list Z) : list Z :=
  match s with
  | h :: l0 :: l1 :: n0 :: n1 :: x :: r =>
      if (h =? 0) && (l0 =? 1) && (l1 =? 0) && (n0 =? 254) && (n1 =? 255)
      then x :: inflate_stored r else []
  | _ => []
  end.

(** ** Keystroke synthesizer ([encode_xte] of exe_to_xte_script_ps1.py) *)

(** Python's [str.splitlines]: the line boundaries are \n, \r, \r\n, \v, \f,
    \x1c, \x1d, \x1e, \x85, U+2028 and U+2029; a final line boundary does
    not start a new (empty) line and the empty string has no lines. *)
Definition is_linebreak (c : N) : bool :=
  existsb (N.eqb c) [10; 11; 12; 13; 28; 29; 30; 133; 8232; 8233]%N.

Fixpoint splitlines_aux (cur : list N) (s : list N) : list (list N) :=
  match s with
  | [] => if is_nil cur then [] else [rev cur]
  | c :: rest =>
      if is_linebreak c then
        rev cur :: splitlines_aux []
          (if (c =? 13)%N then
             match rest with
             | d :: r => if (d =? 10)%N then r else rest
             | [] => rest
             end
           else rest)
      else splitlines_aux (c :: cur) rest
  end.

Definition splitlines (s : list N) : list (list N) := splitlines_aux [] s.

(** The values of [special_key_map]: a key name, or a (modifier, key) tuple. *)
Inductive keyspec :=
| Named (k : string)
| Chord (modifier k : string).

Definition ch (s : string) : N :=
  match s with String a _ => N.of_nat (nat_of_ascii a) | EmptyString => 0%N end.

(** [special_key_map], in the source's order. *)
Definition special_key_table : list (N * keyspec) :=
  [(10%N, Named "Return"); (9%N, Named "Tab"); (ch " ", Named "space");
   (ch "/", Named "slash"); (ch "\", Named "backslash");
   (ch ".", Named "period"); (ch ",", Named "comma");
   (ch ";", Named "semicolon"); (ch ":", Named "colon");
   (ch "'", Named "apostrophe"); (dquote, Named "quotedbl");
   (ch "[", Named "bracketleft"); (ch "]", Named "bracketright");
   (ch "{", Chord "Shift_L" "bracketleft");
   (ch "}", Chord "Shift_L" "bracketright");
   (ch "(", Chord "Shift_L" "9"); (ch ")", Chord "Shift_L" "0");
   (ch "!", Chord "Shift_L" "1"); (ch "@", Chord "Shift_L" "2");
   (ch "#", Chord "Shift_L" "3"); (ch "$", Chord "Shift_L" "4");
   (ch "%", Chord "Shift_L" "5"); (ch "^", Chord "Shift_L" "6");
   (ch "&", Chord "Shift_L" "7"); (ch "*", Chord "Shift_L" "8");
   (ch "+", Chord "Shift_L" "equal"); (ch "=", Named "equal");
   (ch "-", Named "minus"); (ch "_", Chord "Shift_L" "minus");
   (ch "?", Chord "Shift_L" "slash"); (ch "<", Chord "Shift_L" "comma");
   (ch ">", Chord "Shift_L" "period"); (ch "|", Chord "Shift_L" "backslash");
   (ch "`", Named "grave"); (ch "~", Chord "Shift_L" "grave")].

(** [special_key_map[c]], [None] when [c not in special_key_map]. *)
Definition special_key_map (c : N) : option keyspec :=
  match find (fun kv => (fst kv =? c)%N) special_key_table with
  | Some (_, k) => Some k
  | None => None
  end.

(** One line written to [output]; [USleep d] is written as
    [usleep int(d * 1_000_000)] (see [render]). *)
Inductive instr :=
| USleep (d : Q)
| Str (s : list N)
| Key (k : string)
| KeyDown (k : string)
| KeyUp (k : string).

(** The local state of [encode_xte]: the [output] buffer, the nonlocal
    [total_seconds] and the per-line [buffer]. *)
Record xte_state := mk_xte {
  output : list instr;
  total_seconds : Q;
  buffer : list N
}.

Definition write (i : instr) (st : xte_state) : xte_state :=
  mk_xte (output st ++ [i]) (total_seconds st) (buffer st).

Definition set_buffer (b : list N) (st : xte_state) : xte_state :=
  mk_xte (output st) (total_seconds st) b.

(** [xsleep(t)] with the [sleep] multiplier of [encode_xte]. *)
Definition xsleep (sleep t : Q) (st : xte_state) : xte_state :=
  let adjusted := (t * sleep)%Q in
  mk_xte (output st ++ [USleep adjusted]) (total_seconds st + adjusted)%Q
         (buffer st).

(** The body of [for c in line]. *)
Definition encode_char (sleep : Q) (st : xte_state) (c : N) : xte_state :=
  match special_key_map c with
  | Some key =>
      let st1 :=
        if is_nil (buffer st) then st
        else set_buffer [] (xsleep sleep (8 # 100) (write (Str (buffer st)) st)) in
      let st2 :=
        match key with
        | Chord m k => write (KeyUp m) (write (Key k) (write (KeyDown m) st1))
        | Named k => write (Key k) st1
        end in
      xsleep sleep (5 # 100) st2
  | None => xsleep sleep (2 # 100) (write (Str [c]) st)
  end.

(** The body of [for line in text.splitlines()]. *)
Definition encode_line (sleep : Q) (st : xte_state) (line : list N)
  : xte_state :=
  let st1 := fold_left (encode_char sleep) line (set_buffer [] st) in
  let st2 :=
    if is_nil (buffer st1) then st1
    else xsleep sleep (8 # 100) (write (Str (buffer st1)) st1) in
  xsleep sleep (1 # 10) (write (Key "Return") st2).

Definition encode_xte_state (text : list N) (focus_delay sleep : Q)
  : xte_state :=
  fold_left (encode_line sleep) (splitlines text)
            (mk_xte [USleep focus_delay] focus_delay []).

(** [encode_xte(text, focus_delay, sleep)], returning the written lines and
    [total_seconds]. *)
Definition encode_xte (text : list N) (focus_delay sleep : Q)
  : list instr * Q :=
  let st := encode_xte_state text focus_delay sleep in
  (output st, total_seconds st).

(** *** Serialisation of the instruction lines *)

(** Python's [int(x)]: truncation toward zero. *)
Definition py_int (q : Q) : Z := Z.quot (Qnum q) (Zpos (Qden q)).

Fixpoint digits_aux (fuel : nat) (n : N) (acc : list N) : list N :=
  match fuel with
  | O => acc
  | S f =>
      let acc' := (48 + n mod 10)%N :: acc in
      if (n <? 10)%N then acc' else digits_aux f (n / 10)%N acc'
  end.

Definition show_N (n : N) : list N := digits_aux (S (N.size_nat n)) n [].

Definition show_Z (z : Z) : list N :=
  if z <? 0 then ch "-" :: show_N (Z.abs_N z) else show_N (Z.to_N z).

Definition nl : list N := [10%N].

Definition render_instr (i : instr) : list N :=
  match i with
  | USleep d => of_string "usleep " ++ show_Z (py_int (d * inject_Z 1000000)) ++ nl
  | Str s => of_string "str " ++ s ++ nl
  | Key k => of_string "key " ++ of_string k ++ nl
  | KeyDown k => of_string "keydown " ++ of_string k ++ nl
  | KeyUp k => of_string "keyup " ++ of_string k ++ nl
  end.

(** [output.getvalue()], as code points (the bytes are their UTF-8
    encoding). *)
Definition render (l : list instr) : list N := List.concat (map render_instr l).

(** The text typed by the [str] lines, in order. *)
Definition literal_text (l : list instr) : list N :=
  List.concat (map (fun i => match i with Str s => s | _ => [] end) l).

Definition is_str (i : instr) : bool :=
  match i with Str _ => true | _ => false end.

(** *** The lines written for one character and for one line, when the
    literal buffer is empty (which [encode_char] maintains) *)

Definition char_instrs (sleep : Q) (c : N) : list instr :=
  match special_key_map c with
  | Some (Chord m k) => [KeyDown m; Key k; KeyUp m; USleep ((5 # 100) * sleep)]
  | Some (Named k) => [Key k; USleep ((5 # 100) * sleep)]
  | None => [Str [c]; USleep ((2 # 100) * sleep)]
  end.

Definition line_instrs (sleep : Q) (line : list N) : list instr :=
  List.concat (map (char_instrs sleep) line)
  ++ [Key "Return"; USleep ((1 # 10) * sleep)].

(** ** The dropper templates ([generate_powershell_script]) *)

(** [os.path.basename] on POSIX: the part after the last '/'. *)
Definition basename (p : list N) : list N :=
  fst (fold_left (fun (st : list N * bool) (c : N) =>
                         let '(acc, done) := st in
                         if done then (acc, true)
                         else if (c =? ch "/")%N then (acc, true)
                         else (c :: acc, false))
                      (rev p) ([], false)).

(** [args.output_bin_name or path.basename(infile)]. *)
Definition output_bin_name (infile : list N) (bin_name : option (list N))
  : list N :=
  match bin_name with
  | Some (_ :: _ as b) => b
  | _ => basename infile
  end.

Module ExeToPs1.

Definition template_head : list N := of_string "$b64 = " ++ [dquote].

Definition template_mid : list N :=
  [dquote] ++ of_string "
$compressed = [Convert]::FromBase64String($b64)
$ms = New-Object System.IO.MemoryStream
$ms.Write($compressed, 2, $compressed.Length - 2)
$ms.Seek(0, 0) | Out-Null

$ds = New-Object System.IO.Compression.DeflateStream($ms, [System.IO.Compression.CompressionMode]::Decompress)
$out = New-Object System.IO.MemoryStream
$ds.CopyTo($out)
$ms.Close()

[System.IO.File]::WriteAllBytes(" ++ [dquote] ++ of_string "$env:USERPROFILE\".

Definition template_tail : list N :=
  [dquote] ++ of_string ", $out.ToArray())
$out.Close()
".

(** The f-string of exe_to_ps1.py, lines 13-26. *)
Definition generate_powershell_script (encoded_data output_filename : list N)
  : list N :=
  template_head ++ encoded_data ++ template_mid ++ output_filename
  ++ template_tail.

End ExeToPs1.

Module ExeToXte.

Definition template_head : list N := of_string "
$b64 = " ++ [dquote].

Definition template_mid : list N :=
  [dquote] ++ of_string "

$compressed = [Convert]::FromBase64String($b64)

$ms = New-Object System.IO.MemoryStream

$null = $ms.Write($compressed, 2, $compressed.Length - 2)

$null = $ms.Seek(0, 0)

$ds = New-Object System.IO.Compression.DeflateStream($ms,[System.IO.Compression.CompressionMode]::Decompress)

$out = New-Object System.IO.MemoryStream

$ds.CopyTo($out)

$ms.Close()

$ds.Close()

$outputPath = Join-Path $env:USERPROFILE " ++ [dquote].

Definition template_tail : list N :=
  [dquote] ++ of_string "

[System.IO.File]::WriteAllBytes($outputPath, $out.ToArray())

$out.Close()
".

(** The f-string of exe_to_xte_script_ps1.py, lines 13-39. *)
Definition generate_powershell_script (encoded_data output_filename : list N)
  : list N :=
  template_head ++ encoded_data ++ template_mid ++ output_filename
  ++ template_tail.

End ExeToXte.

(** *** PowerShell's string literals, conservatively

    Outside a literal, a double quote (ASCII or typographic, U+201C..U+201E)
    opens one. Inside, the backtick escapes the next character, and a double
    quote closes the literal unless it is immediately followed by another
    double quote (the pair stands for one quote character). [AfterDq] is the
    state just after a double quote inside a literal, [Dollar] the state
    just after a [$] inside one.

    The lexer does not follow the constructs in which quotes nest or lose
    their meaning: a subexpression [$( ... )] or a braced variable
    [${ ... }] inside a literal, and, outside literals, single-quoted
    strings (ASCII or typographic quotes U+2018..U+201B), comments ([#]) and
    here-strings or array and hash literals ([@]). On any of these it stops
    in [Unsupported], and the script is not reported closed. *)
Inductive lex_state := Code | InDq | Escaped | AfterDq | Dollar | Unsupported.

Definition is_dq (c : N) : bool := existsb (N.eqb c) [34; 8220; 8221; 8222]%N.

Definition is_sq (c : N) : bool := existsb (N.eqb c) [39; 8216; 8217; 8218; 8219]%N.

Definition backtick : N := 96%N.

Definition dollar : N := 36%N.

(** A character of code, outside any literal. *)
Definition code_step (c : N) : lex_state :=
  if is_dq c then InDq
  else if is_sq c || (c =? ch "#")%N || (c =? ch "@")%N then Unsupported
  else Code.

(** A character inside a double-quoted literal. *)
Definition dq_char (c : N) : lex_state :=
  if (c =? backtick)%N then Escaped
  else if is_dq c then AfterDq
  else if (c =? dollar)%N then Dollar
  else InDq.

Definition dq_step (st : lex_state) (c : N) : lex_state :=
  match st with
  | Code => code_step c
  | AfterDq => if is_dq c then InDq else code_step c
  | InDq => dq_char c
  | Escaped => InDq
  | Dollar =>
      if (c =? ch "(")%N || (c =? ch "{")%N then Unsupported else dq_char c
  | Unsupported => Unsupported
  end.

Definition dq_scan (st : lex_state) (s : list N) : lex_state :=
  fold_left dq_step s st.

(** Every double-quoted literal of the script is closed, and none holds a
    construct the lexer does not follow. *)
Definition literals_closed (script : list N) : bool :=
  match dq_scan Code script with
  | Code | AfterDq => true
  | InDq | Escaped | Dollar | Unsupported => false
  end.

(** ** Double-precision semantics of exe_to_xte_script_ps1.py

    [encode_xte] above computes with exact rationals. The definitions below
    follow the program's own arithmetic: IEEE-754 doubles (Rocq's primitive
    floats, with the rounding of every product and sum), Python's [int()]
    on a float, the UTF-8 [.encode()] of every line written, and the
    exceptions these raise. *)

Inductive py_exc :=
| OverflowError        (** [int()] of an infinite float *)
| ValueError           (** [int()] of a NaN *)
| UnicodeEncodeError.  (** UTF-8 encoding of a lone surrogate *)

(** A computation that returns or raises. *)
Inductive res (A : Type) : Type :=
| Ok (a : A)
| Raise (e : py_exc).
Arguments Ok {A} a.
Arguments Raise {A} e.

Definition bind {A B : Type} (m : res A) (f : A -> res B) : res B :=
  match m with Ok a => f a | Raise e => Raise e end.

Notation "x <- m ;; k" := (bind m (fun x => k))
  (at level 61, m at next level, right associativity).

Fixpoint fold_res {A B : Type} (f : A -> B -> res A) (l : list B) (a : A)
  : res A :=
  match l with
  | [] => Ok a
  | x :: r => a' <- f a x;; fold_res f r a'
  end.

(** Python's [int(x)] for a float [x]: truncation toward zero; an infinity
    raises [OverflowError], a NaN [ValueError]. *)
Definition float_int (x : float) : res Z :=
  match Prim2SF x with
  | S754_zero _ => Ok 0
  | S754_infinity _ => Raise OverflowError
  | S754_nan => Raise ValueError
  | S754_finite s m e =>
      let z := if 0 <=? e then Z.pos m * 2 ^ e else Z.pos m / 2 ^ (- e) in
      Ok (if s then - z else z)
  end.

(** [str.encode()] (UTF-8, strict): a lone surrogate, which [sys.argv]
    holds for an undecodable byte of a POSIX argument, raises. *)
Definition is_surrogate (c : N) : bool := (55296 <=? c)%N && (c <=? 57343)%N.

Definition utf8_char (c : N) : res (list Z) :=
  let z := Z.of_N c in
  if z <? 128 then Ok [z]
  else if z <? 2048 then Ok [192 + z / 64; 128 + z mod 64]
  else if is_surrogate c then Raise UnicodeEncodeError
  else if z <? 65536 then Ok [224 + z / 4096; 128 + (z / 64) mod 64; 128 + z mod 64]
  else Ok [240 + z / 262144; 128 + (z / 4096) mod 64; 128 + (z / 64) mod 64;
           128 + z mod 64].

Fixpoint utf8 (s : list N) : res (list Z) :=
  match s with
  | [] => Ok []
  | c :: r => b <- utf8_char c;; t <- utf8 r;; Ok (b ++ t)
  end.

Module Py.

(** One line written by [encode_xte], before formatting. *)
Inductive xline :=
| XUsleep (us : Z)
| XStr (s : list N)
| XKey (k : string)
| XKeyDown (k : string)
| XKeyUp (k : string).

(** The f-string of each [output.write]. *)
Definition xline_text (l : xline) : list N :=
  match l with
  | XUsleep n => of_string "usleep " ++ show_Z n ++ nl
  | XStr s => of_string "str " ++ s ++ nl
  | XKey k => of_string "key " ++ of_string k ++ nl
  | XKeyDown k => of_string "keydown " ++ of_string k ++ nl
  | XKeyUp k => of_string "keyup " ++ of_string k ++ nl
  end.

(** The state of one call: the lines written so far (a log of the writes),
    the bytes of the [BytesIO], [total_seconds] and [buffer]. *)
Record xst := mk_xst {
  lines : list xline;
  bytes : list Z;
  total_seconds : float;
  buffer : list N
}.

(** [output.write(f'...'.encode())] *)
Definition write (l : xline) (st : xst) : res xst :=
  b <- utf8 (xline_text l);;
  Ok (mk_xst (lines st ++ [l]) (bytes st ++ b) (total_seconds st) (buffer st)).

Definition set_buffer (b : list N) (st : xst) : xst :=
  mk_xst (lines st) (bytes st) (total_seconds st) b.

(** [xsleep(t)]: [adjusted = t * sleep], [total_seconds += adjusted], then
    the line [usleep {int(adjusted * 1_000_000)}]. *)
Definition xsleep (sleep t : float) (st : xst) : res xst :=
  let adjusted := (t * sleep)%float in
  n <- float_int (adjusted * 1000000)%float;;
  write (XUsleep n)
    (mk_xst (lines st) (bytes st) (total_seconds st + adjusted)%float (buffer st)).

(** The body of [for c in line]. *)
Definition encode_char (sleep : float) (st : xst) (c : N) : res xst :=
  match special_key_map c with
  | Some key =>
      st1 <- (if is_nil (buffer st) then Ok st
              else s1 <- write (XStr (buffer st)) st;;
                   s2 <- xsleep sleep 0.08%float s1;;
                   Ok (set_buffer [] s2));;
      st2 <- (match key with
              | Chord m k =>
                  s1 <- write (XKeyDown m) st1;;
                  s2 <- write (XKey k) s1;;
                  write (XKeyUp m) s2
              | Named k => write (XKey k) st1
              end);;
      xsleep sleep 0.05%float st2
  | None =>
      s1 <- write (XStr [c]) st;;
      xsleep sleep 0.02%float s1
  end.

(** The body of [for line in text.splitlines()]. *)
Definition encode_line (sleep : float) (st : xst) (line : list N) : res xst :=
  st1 <- fold_res (encode_char sleep) line (set_buffer [] st);;
  st2 <- (if is_nil (buffer st1) then Ok st1
          else s1 <- write (XStr (buffer st1)) st1;;
               xsleep sleep 0.08%float s1);;
  s3 <- write (XKey "Return") st2;;
  xsleep sleep 0.1%float s3.

Definition encode_xte_state (text : list N) (focus_delay sleep : float)
  : res xst :=
  n <- float_int (focus_delay * 1000000)%float;;
  st0 <- write (XUsleep n) (mk_xst [] [] focus_delay []);;
  fold_res (encode_line sleep) (splitlines text) st0.

(** [encode_xte(text, focus_delay, sleep)]: the bytes of the script and
    [total_seconds], or the exception raised. *)
Definition encode_xte (text : list N) (focus_delay sleep : float)
  : res (list Z * float) :=
  st <- encode_xte_state text focus_delay sleep;;
  Ok (bytes st, total_seconds st).

End Py.

(** Closed forms for the double-precision encoder: the factor [t] of each
    [xsleep(t)] after the focus delay, in output order, when the buffer
    stays empty; the [usleep] values of a list of written lines. *)
Definition char_factor (c : N) : float :=
  match special_key_map c with
  | Some _ => 0.05%float
  | None => 0.02%float
  end.

Definition sleep_factors (text : list N) : list float :=
  List.concat (map (fun line => map char_factor line ++ [0.1%float])
                   (splitlines text)).

Definition durations (text : list N) (sleep : float) : list float :=
  map (fun t => (t * sleep)%float) (sleep_factors text).

Definition usleep_values (ls : list Py.xline) : list Z :=
  List.concat (map (fun l => match l with Py.XUsleep n => [n] | _ => [] end) ls).

(** The lines written for one character when the buffer is empty, [n]
    being the [usleep] value of its sleep. *)
Definition char_lines (c : N) (n : Z) : list Py.xline :=
  match special_key_map c with
  | Some (Chord m k) => [Py.XKeyDown m; Py.XKey k; Py.XKeyUp m; Py.XUsleep n]
  | Some (Named k) => [Py.XKey k; Py.XUsleep n]
  | None => [Py.XStr [c]; Py.XUsleep n]
  end.

(** The bytes of the [BytesIO] are the UTF-8 encoding of the lines written. *)
Definition bytes_inv (st : Py.xst) : Prop :=
  utf8 (List.concat (map Py.xline_text (Py.lines st))) = Ok (Py.bytes st).

(** ** The [main] drivers *)

(** What the file system does during one run. *)
Record world := mk_world {
  (** [open(infile, 'rb').read()]; [None] when it raises *)
  infile_data : option (list Z);
  (** [open(outfile, ...)]: [None] when it succeeds, [Some msg] when it
      raises an [OSError] with message [msg] *)
  outfile_open : option (list N);
  (** writing and closing the file: [None] when it succeeds, [Some (k, msg)]
      when an [OSError] is raised after the first [k] bytes reached the
      file *)
  outfile_write : option (nat * list N)
}.

Inductive cause :=
| OSError (msg : list N)
| Exc (e : py_exc).

Inductive message :=
| Wrote (outfile : list N)        (** "[+] Wrote the ... script to ..." *)
| Estimate (total : float)        (** "[+] Estimated time to execute ..." *)
| WriteFailed (c : cause)         (** "Failed to write output: {e}" *)
| Traceback (e : py_exc).         (** an uncaught exception *)

Record outcome := mk_outcome {
  stdout : list message;
  stderr : list message;
  exit_status : Z;
  (** the bytes of the output file after the run: [None] when it was never
      opened (left as it was), [Some contents] once [open(outfile, ...)]
      created or truncated it *)
  artifact : option (list Z)
}.

(** The [try: with open(outfile, ...) as f: f.write(...); print(...)]
    block shared by both drivers. [content] is what [f.write] puts in the
    file: the bytes, or the exception its encoding raises, which happens
    before any byte is written; [printed] is what was printed before. The
    [print] after the [with] block writes [outfile] to a UTF-8 stdout with
    strict errors, so a lone surrogate in [outfile] raises there, after the
    file is complete. *)
Definition write_output (w : world) (outfile : list N) (content : res (list Z))
  (printed : list message) : outcome :=
  match outfile_open w with
  | Some msg => mk_outcome printed [WriteFailed (OSError msg)] 1 None
  | None =>
      match content with
      | Raise e => mk_outcome printed [WriteFailed (Exc e)] 1 (Some [])
      | Ok data =>
          match outfile_write w with
          | Some (k, msg) =>
              mk_outcome printed [WriteFailed (OSError msg)] 1
                         (Some (firstn k data))
          | None =>
              match utf8 outfile with
              | Raise e => mk_outcome printed [WriteFailed (Exc e)] 1 (Some data)
              | Ok _ => mk_outcome (printed ++ [Wrote outfile]) [] 0 (Some data)
              end
          end
      end
  end.

(** [main] of exe_to_ps1.py, after argument parsing. The script is written
    in text mode, encoded in UTF-8 (the locale's encoding) with strict
    errors. *)
Definition main_ps1 (raw_deflate : list Z -> list Z)
  (infile outfile : list N) (bin_name : option (list N)) (w : world)
  : outcome :=
  match infile_data w with
  | None => mk_outcome [] [] 1 None
  | Some data =>
      let b64_data := compress_and_encode raw_deflate data in
      let ps_script := ExeToPs1.generate_powershell_script b64_data
                         (output_bin_name infile bin_name) in
      write_output w outfile (utf8 ps_script) []
  end.

(** [main] of exe_to_xte_script_ps1.py, after argument parsing: [delay]
    and [sleep] are the floats [float(args.delay)] and [float(args.sleep)].
    [encode_xte] runs before the [try]: an exception it raises ends the
    run with a traceback before the output file is opened. *)
Definition main_xte (raw_deflate : list Z -> list Z)
  (infile outfile : list N) (bin_name : option (list N)) (delay sleep : float)
  (w : world) : outcome :=
  match infile_data w with
  | None => mk_outcome [] [] 1 None
  | Some data =>
      let b64_data := compress_and_encode raw_deflate data in
      let ps_script := ExeToXte.generate_powershell_script b64_data
                         (output_bin_name infile bin_name) in
      match Py.encode_xte ps_script delay sleep with
      | Raise e => mk_outcome [] [Traceback e] 1 None
      | Ok (xte_script_bytes, total_time) =>
          write_output w outfile (Ok xte_script_bytes) [Estimate total_time]
      end
  end.

(** Characters that neither close a double-quoted literal, nor escape, nor
    start a variable or a subexpression inside one. *)
Definition plain_char (c : N) : bool :=
  negb (is_dq c) && negb (c =? backtick)%N && negb (c =? dollar)%N.

Definition b64_char (c : N) : bool :=
  match val c with Some _ => true | None => (c =? pad)%N end.

(** ** Further observations on the output of [encode_xte] *)

Definition is_usleep (i : instr) : bool :=
  match i with USleep _ => true | _ => false end.

Definition is_return (i : instr) : bool :=
  match i with Key k => String.eqb k "Return" | _ => false end.

(** What the script types when replayed with the key meanings of the
    script's own [special_key_map]: [str s] types [s], [key k] types the
    character mapped to [k] (to the chord [(Shift_L, k)] while [Shift_L] is
    held), [keydown]/[keyup Shift_L] press and release [Shift_L], and
    [usleep] types nothing. *)
Definition keyspec_eqb (a b : keyspec) : bool :=
  match a, b with
  | Named x, Named y => String.eqb x y
  | Chord m k, Chord m' k' => String.eqb m m' && String.eqb k k'
  | _, _ => false
  end.

Definition key_char (shift : bool) (k : string) : list N :=
  match find (fun kv => keyspec_eqb (snd kv)
                          (if shift then Chord "Shift_L" k else Named k))
             special_key_table with
  | Some (c, _) => [c]
  | None => []
  end.

Fixpoint replay_aux (shift : bool) (l : list instr) : list N :=
  match l with
  | [] => []
  | USleep _ :: r => replay_aux shift r
  | Str s :: r => s ++ replay_aux shift r
  | Key k :: r => key_char shift k ++ replay_aux shift r
  | KeyDown m :: r => replay_aux (if String.eqb m "Shift_L" then true else shift) r
  | KeyUp m :: r => replay_aux (if String.eqb m "Shift_L" then false else shift) r
  end.

Definition xte_typed (l : list instr) : list N := replay_aux false l.

(** Lines terminated by "\n". *)
Definition join_lines (lines : list (list N)) : list N :=
  List.concat (map (fun l => l ++ [10%N]) lines).

Definition count_nl (s : list N) : nat := List.length (filter (N.eqb 10) s).

(** The characters of a list up to its first '/', and the rest. *)
Fixpoint take_until_slash (l : list N) : list N :=
  match l with
  | [] => []
  | c :: r => if (c =? ch "/")%N then [] else c :: take_until_slash r
  end.

Fixpoint drop_until_slash (l : list N) : list N :=
  match l with
  | [] => []
  | c :: r => if (c =? ch "/")%N then l else drop_until_slash r
  end.

(** An instruction whose text holds no newline renders as one line. *)
Definition instr_one_line (i : instr) : Prop :=
  match i with
  | USleep _ => True
  | Str s => count_nl s = 0%nat
  | Key k | KeyDown k | KeyUp k => count_nl (of_string k) = 0%nat
  end.

(** Whether a text is empty or ends in "\n". *)
Definition ends_in_newline (text : list N) : bool :=
  match text with
  | [] => true
  | _ => (last text 0 =? 10)%N
  end.

(** ** Lemmas on the codec *)

Lemma val_sym_table :
  forallb (fun k => match val (sym (Z.of_nat k)) with
                    | Some m => m =? Z.of_nat k | None => false end)
          (seq 0 64) = true.
Proof. vm_compute. reflexivity. Qed.

Lemma val_sym (n : Z) : 0 <= n < 64 -> val (sym n) = Some n.
Proof.
  intros Hn.
  assert (Hk : In (Z.to_nat n) (seq 0 64)) by (apply in_seq; lia).
  pose proof val_sym_table as T. rewrite forallb_forall in T.
  specialize (T _ Hk). rewrite Z2Nat.id in T by lia.
  destruct (val (sym n)); [|discriminate].
  apply Z.eqb_eq in T. now subst.
Qed.

Lemma sym_not_pad (n : Z) : 0 <= n < 64 -> (sym n =? pad)%N = false.
Proof.
  intros Hn. apply N.eqb_neq. intros E.
  assert (H := val_sym n Hn). rewrite E in H. discriminate H.
Qed.

Ltac byte_arith :=
  repeat match goal with
         | H : Forall _ (_ :: _) |- _ => inversion H; subst; clear H
         end;
  unfold byte_range in *.

Ltac zarith := Z.div_mod_to_equations; lia.

Lemma b64_roundtrip (l : list Z) :
  Forall byte_range l -> b64decode (b64encode l) = Some l.
Proof.
  revert l. fix IH 1. intros l Hl.
  destruct l as [|a [|b [|c rest]]].
  - reflexivity.
  - byte_arith. simpl.
    rewrite !val_sym by zarith. simpl. f_equal. f_equal. zarith.
  - byte_arith. simpl.
    rewrite !val_sym by zarith. rewrite sym_not_pad by zarith. simpl.
    f_equal. f_equal; [zarith|f_equal; zarith].
  - byte_arith. simpl.
    rewrite !val_sym by zarith. rewrite !sym_not_pad by zarith. simpl.
    rewrite (IH rest) by assumption.
    f_equal. f_equal; [zarith|f_equal; [zarith|f_equal; zarith]].
Qed.

Lemma be32_range (n : Z) : Forall byte_range (be32 n).
Proof.
  unfold be32, byte_range.
  repeat constructor; apply Z.mod_pos_bound; lia.
Qed.

Lemma zlib_compress_range (raw_deflate : list Z -> list Z) (data : list Z) :
  Forall byte_range (raw_deflate data) ->
  Forall byte_range (zlib_compress raw_deflate data).
Proof.
  intros H. unfold zlib_compress, zlib_header.
  apply Forall_app. split.
  - repeat constructor; unfold byte_range; lia.
  - apply Forall_app. split; [exact H | apply be32_range].
Qed.

Lemma inflate_deflate_stored (data t : list Z) :
  inflate_stored (deflate_stored data ++ t) = data.
Proof.
  induction data as [|x r IH]; simpl.
  - destruct t; reflexivity.
  - rewrite IH. reflexivity.
Qed.

Lemma deflate_stored_range (data : list Z) :
  Forall byte_range data -> Forall byte_range (deflate_stored data).
Proof.
  induction 1; simpl.
  - repeat constructor; unfold byte_range; lia.
  - repeat (apply Forall_cons; [unfold byte_range in *; lia|]); assumption.
Qed.

(** C1. Round trip of the dropper: for every byte string [B], decoding the
    base64 text produced by [compress_and_encode] on the target, skipping the
    first two bytes (the zlib header) and raw-inflating the rest gives back
    [B], for any raw DEFLATE coder whose decoder inverts its encoder on a
    stream followed by arbitrary trailing bytes (the Adler-32 trailer). *)
Theorem dropper_roundtrip (raw_deflate raw_inflate : list Z -> list Z)
  (Hrange : forall B, Forall byte_range B -> Forall byte_range (raw_deflate B))
  (Hinflate : forall B t, raw_inflate (raw_deflate B ++ t) = B)
  (B : list Z) (HB : Forall byte_range B) :
  target_decode raw_inflate (compress_and_encode raw_deflate B) = Some B.
Proof.
  unfold target_decode, compress_and_encode.
  rewrite b64_roundtrip by (apply zlib_compress_range, Hrange, HB).
  unfold zlib_compress, zlib_header. simpl skipn.
  rewrite Hinflate. reflexivity.
Qed.

Lemma dropper_roundtrip_witness :
  Forall byte_range [0; 77; 90; 255] /\
  target_decode inflate_stored
    (compress_and_encode deflate_stored [0; 77; 90; 255])
  = Some [0; 77; 90; 255].
Proof.
  split.
  - repeat constructor; unfold byte_range; lia.
  - apply (dropper_roundtrip deflate_stored inflate_stored
             deflate_stored_range inflate_deflate_stored).
    repeat constructor; unfold byte_range; lia.
Defined.


(** ** Lemmas on [encode_xte] *)

Lemma encode_char_empty (sleep : Q) (st : xte_state) (c : N) :
  buffer st = [] ->
  output (encode_char sleep st c) = output st ++ char_instrs sleep c /\
  buffer (encode_char sleep st c) = [].
Proof.
  intros Hb. unfold encode_char, char_instrs. rewrite Hb. simpl.
  destruct (special_key_map c) as [[k|m k]|]; simpl; rewrite ?Hb;
    rewrite <- ?app_assoc; auto.
Qed.

Lemma encode_chars_empty (sleep : Q) (line : list N) (st : xte_state) :
  buffer st = [] ->
  output (fold_left (encode_char sleep) line st)
    = output st ++ List.concat (map (char_instrs sleep) line) /\
  buffer (fold_left (encode_char sleep) line st) = [].
Proof.
  revert st. induction line as [|c r IH]; intros st Hb; simpl.
  - rewrite app_nil_r. auto.
  - destruct (encode_char_empty sleep st c Hb) as [Ho Hb'].
    destruct (IH _ Hb') as [Ho' Hb''].
    rewrite Ho', Ho, app_assoc. auto.
Qed.

Lemma encode_line_output (sleep : Q) (st : xte_state) (line : list N) :
  output (encode_line sleep st line) = output st ++ line_instrs sleep line.
Proof.
  unfold encode_line, line_instrs.
  destruct (encode_chars_empty sleep line (set_buffer [] st) eq_refl)
    as [Ho Hb].
  rewrite Hb. simpl. rewrite Ho. simpl.
  rewrite <- !app_assoc. reflexivity.
Qed.

Lemma encode_lines_output (sleep : Q) (lines : list (list N)) (st : xte_state) :
  output (fold_left (encode_line sleep) lines st)
  = output st ++ List.concat (map (line_instrs sleep) lines).
Proof.
  revert st. induction lines as [|l r IH]; intros st; simpl.
  - rewrite app_nil_r. reflexivity.
  - rewrite IH, encode_line_output, app_assoc. reflexivity.
Qed.

(** The whole output of [encode_xte]: the focus delay, then the lines. *)
Lemma encode_xte_output (text : list N) (focus_delay sleep : Q) :
  fst (encode_xte text focus_delay sleep)
  = USleep focus_delay
      :: List.concat (map (line_instrs sleep) (splitlines text)).
Proof.
  unfold encode_xte, encode_xte_state. simpl.
  rewrite encode_lines_output. reflexivity.
Qed.

(** A line break appended to a text whose last character is not a line
    break does not change its lines. *)
Lemma splitlines_aux_snoc (n : nat) (s cur : list N) :
  (List.length s <= n)%nat ->
  (s = [] /\ cur <> []) \/ (s <> [] /\ is_linebreak (last s 0%N) = false) ->
  splitlines_aux cur (s ++ [10%N]) = splitlines_aux cur s.
Proof.
  revert s cur. induction n as [|n IH]; intros s cur Hlen Hs.
  - destruct s; [|simpl in Hlen; lia].
    destruct Hs as [[_ Hc]|[Hne _]]; [|congruence].
    destruct cur; [congruence|reflexivity].
  - destruct s as [|c rest].
    + destruct Hs as [[_ Hc]|[Hne _]]; [|congruence].
      destruct cur; [congruence|reflexivity].
    + simpl in Hlen. simpl.
      destruct Hs as [[Hne _]|[_ Hlast]]; [discriminate|].
      destruct rest as [|d r].
      * simpl in Hlast. rewrite Hlast. reflexivity.
      * change (last (c :: d :: r) 0%N) with (last (d :: r) 0%N) in Hlast.
        destruct (is_linebreak c) eqn:Hc.
        -- f_equal. simpl.
           destruct ((c =? 13)%N) eqn:E13; [destruct ((d =? 10)%N) eqn:E10|].
           ++ destruct r as [|e r'].
              ** apply N.eqb_eq in E10. subst d. simpl in Hlast. discriminate.
              ** apply IH; [simpl in *; lia|].
                 right. split; [discriminate|].
                 exact Hlast.
           ++ change ((d :: r) ++ [10%N]) with (d :: (r ++ [10%N])) in *.
              apply (IH (d :: r)); [simpl in *; lia|].
              right. split; [discriminate|exact Hlast].
           ++ apply (IH (d :: r)); [simpl in *; lia|].
              right. split; [discriminate|exact Hlast].
        -- apply (IH (d :: r)); [simpl in *; lia|].
           right. split; [discriminate|exact Hlast].
Qed.

(** ** Claims on [encode_xte] *)

(** C2 (amended). For a text none of whose lines contains a character of
    [special_key_map], the output is the focus delay followed by one block
    per line; each block is a run of [str] lines with nonempty text and of
    [usleep] lines, whose [str] texts spell out the line (so an empty line
    has no [str] line), closed by [key Return] and the line-end sleep. In
    particular there is exactly one [key Return] per line and no chord. *)
Theorem literal_lines (text : list N) (focus_delay sleep : Q)
  (Hplain : forall line, In line (splitlines text) ->
            forall c, In c line -> special_key_map c = None) :
  exists blocks,
    fst (encode_xte text focus_delay sleep)
      = USleep focus_delay :: List.concat blocks /\
    Forall2 (fun line blk =>
               exists X, blk = X ++ [Key "Return"; USleep ((1 # 10) * sleep)] /\
                         Forall (fun i => (exists s, i = Str s /\ s <> []) \/
                                          (exists d, i = USleep d)) X /\
                         literal_text X = line)
            (splitlines text) blocks.
Proof.
  exists (map (line_instrs sleep) (splitlines text)).
  split; [apply encode_xte_output|].
  induction (splitlines text) as [|line r IH]; simpl; constructor.
  - exists (List.concat (map (char_instrs sleep) line)).
    split; [reflexivity|].
    assert (Hl : forall c, In c line -> special_key_map c = None)
      by (apply Hplain; left; reflexivity).
    clear IH Hplain. induction line as [|c cs IHc]; simpl.
    + split; [constructor|reflexivity].
    + assert (Hc : special_key_map c = None) by (apply Hl; left; reflexivity).
      replace (char_instrs sleep c) with [Str [c]; USleep ((2 # 100) * sleep)]
        by (unfold char_instrs; rewrite Hc; reflexivity).
      destruct IHc as [Hf Ht]; [intros x Hx; apply Hl; right; exact Hx|].
      split.
      * constructor; [left; exists [c]; split; [reflexivity|discriminate]|].
        constructor; [right; eexists; reflexivity|exact Hf].
      * unfold literal_text in *. simpl. rewrite Ht. reflexivity.
  - apply IH. intros l Hl. apply Hplain. right. exact Hl.
Qed.

Lemma literal_lines_witness :
  (forall line, In line (splitlines (of_string "ab")) ->
   forall c, In c line -> special_key_map c = None) /\
  exists blocks,
    fst (encode_xte (of_string "ab") 1 1) = USleep 1 :: List.concat blocks /\
    Forall2 (fun line blk =>
               exists X, blk = X ++ [Key "Return"; USleep ((1 # 10) * 1)] /\
                         Forall (fun i => (exists s, i = Str s /\ s <> []) \/
                                          (exists d, i = USleep d)) X /\
                         literal_text X = line)
            (splitlines (of_string "ab")) blocks.
Proof.
  assert (H : forall line, In line (splitlines (of_string "ab")) ->
              forall c, In c line -> special_key_map c = None).
  { vm_compute. intros line [<-|[]] c [<-|[<-|[]]]; reflexivity. }
  split; [exact H|].
  exact (literal_lines (of_string "ab") 1 1 H).
Defined.

(** C2 (as stated, refuted). The text "\n" (one empty line) gives no [str]
    line, and the text "ab" (one line) gives two. *)
Lemma literal_lines_counterexample :
  List.length (filter is_str (fst (encode_xte [10%N] 1 1)))
    <> List.length (splitlines [10%N]) /\
  List.length (filter is_str (fst (encode_xte (of_string "ab") 1 1)))
    <> List.length (splitlines (of_string "ab")).
Proof. split; intros H; vm_compute in H; discriminate H. Qed.

(** C4. A character mapped to a (modifier, key) pair, wherever it occurs in
    a line, is written as exactly [keydown modifier], [key key],
    [keyup modifier] and the per-key sleep, between the lines of the
    characters before it and those of the characters after it. *)
Theorem chord_events (text : list N) (focus_delay sleep : Q) (c : N)
  (m k : string) (ls1 ls2 : list (list N)) (a b : list N)
  (Hc : special_key_map c = Some (Chord m k))
  (Hlines : splitlines text = ls1 ++ (a ++ c :: b) :: ls2) :
  fst (encode_xte text focus_delay sleep)
  = USleep focus_delay :: List.concat (map (line_instrs sleep) ls1)
    ++ List.concat (map (char_instrs sleep) a)
    ++ [KeyDown m; Key k; KeyUp m; USleep ((5 # 100) * sleep)]
    ++ List.concat (map (char_instrs sleep) b)
    ++ [Key "Return"; USleep ((1 # 10) * sleep)]
    ++ List.concat (map (line_instrs sleep) ls2).
Proof.
  rewrite encode_xte_output, Hlines, map_app, concat_app. simpl.
  unfold line_instrs at 2. rewrite map_app, concat_app. simpl.
  replace (char_instrs sleep c)
    with [KeyDown m; Key k; KeyUp m; USleep ((5 # 100) * sleep)]
    by (unfold char_instrs; rewrite Hc; reflexivity).
  rewrite <- !app_assoc. reflexivity.
Qed.

Lemma chord_events_witness :
  special_key_map (ch "{") = Some (Chord "Shift_L" "bracketleft") /\
  splitlines (of_string "x{y") = [] ++ ([ch "x"] ++ ch "{" :: [ch "y"]) :: [] /\
  fst (encode_xte (of_string "x{y") 1 1)
  = USleep 1 :: List.concat (map (line_instrs 1) [])
    ++ List.concat (map (char_instrs 1) [ch "x"])
    ++ [KeyDown "Shift_L"; Key "bracketleft"; KeyUp "Shift_L"; USleep ((5 # 100) * 1)]
    ++ List.concat (map (char_instrs 1) [ch "y"])
    ++ [Key "Return"; USleep ((1 # 10) * 1)]
    ++ List.concat (map (line_instrs 1) []).
Proof.
  assert (Hc : special_key_map (ch "{") = Some (Chord "Shift_L" "bracketleft"))
    by reflexivity.
  assert (Hl : splitlines (of_string "x{y")
               = [] ++ ([ch "x"] ++ ch "{" :: [ch "y"]) :: []) by reflexivity.
  split; [exact Hc|split; [exact Hl|]].
  exact (chord_events (of_string "x{y") 1 1 (ch "{") "Shift_L" "bracketleft"
           [] [] [ch "x"] [ch "y"] Hc Hl).
Defined.

(** C6 (code bug). The script written for "echo hi\n" with focus delay 1
    and multiplier 1: every letter is its own [str] line followed by a
    0.02 s sleep, and the total is 1.27 s (not 1 + 0.08 + 0.05 + 0.08 + 0.1). *)
Theorem echo_hi_script :
  render (fst (encode_xte (of_string "echo hi" ++ [10%N]) 1 1)) =
  of_string "usleep 1000000
str e
usleep 20000
str c
usleep 20000
str h
usleep 20000
str o
usleep 20000
key space
usleep 50000
str h
usleep 20000
str i
usleep 20000
key Return
usleep 100000
" /\
  (snd (encode_xte (of_string "echo hi" ++ [10%N]) 1 1) == 127 # 100)%Q.
Proof. split; vm_compute; reflexivity. Qed.

(** C7. The text "\n\n" gives, after the focus delay, two [key Return]
    lines each followed by the line-end sleep, and nothing else. *)
Theorem empty_lines_events (focus_delay sleep : Q) :
  encode_xte [10%N; 10%N] focus_delay sleep
  = ([USleep focus_delay; Key "Return"; USleep ((1 # 10) * sleep);
      Key "Return"; USleep ((1 # 10) * sleep)],
     (focus_delay + (1 # 10) * sleep + (1 # 10) * sleep)%Q).
Proof. reflexivity. Qed.

(** C9. Every [str] line written by [encode_xte] carries exactly one
    character: the literal buffer is never filled. *)
Theorem str_single_char (text : list N) (focus_delay sleep : Q) (s : list N)
  (Hin : In (Str s) (fst (encode_xte text focus_delay sleep))) :
  List.length s = 1%nat.
Proof.
  rewrite encode_xte_output in Hin.
  destruct Hin as [Hin|Hin]; [discriminate Hin|].
  apply in_concat in Hin. destruct Hin as [blk [Hblk Hin]].
  apply in_map_iff in Hblk. destruct Hblk as [line [<- _]].
  unfold line_instrs in Hin. apply in_app_or in Hin.
  destruct Hin as [Hin|[H|[H|[]]]]; try discriminate H.
  apply in_concat in Hin. destruct Hin as [ci [Hci Hin]].
  apply in_map_iff in Hci. destruct Hci as [c [<- _]].
  unfold char_instrs in Hin.
  destruct (special_key_map c) as [[k|m k]|];
    repeat (destruct Hin as [H|Hin]; [try discriminate H|]); try contradiction.
  injection H as <-. reflexivity.
Qed.

Lemma str_single_char_witness :
  In (Str [ch "a"]) (fst (encode_xte (of_string "a") 1 1)) /\
  List.length [ch "a"] = 1%nat.
Proof.
  assert (H : In (Str [ch "a"]) (fst (encode_xte (of_string "a") 1 1)))
    by (right; left; reflexivity).
  split; [exact H|].
  exact (str_single_char (of_string "a") 1 1 [ch "a"] H).
Defined.

(** C10 (amended). For a nonempty text whose last character is not a line
    break, appending "\n" changes neither the written lines nor the total:
    the last line gets its [key Return] and line-end sleep either way. *)
Theorem trailing_newline_invariance (text : list N) (focus_delay sleep : Q)
  (Hne : text <> []) (Hlast : is_linebreak (last text 0%N) = false) :
  encode_xte (text ++ [10%N]) focus_delay sleep
    = encode_xte text focus_delay sleep /\
  render (fst (encode_xte (text ++ [10%N]) focus_delay sleep))
    = render (fst (encode_xte text focus_delay sleep)).
Proof.
  assert (E : encode_xte (text ++ [10%N]) focus_delay sleep
              = encode_xte text focus_delay sleep).
  { unfold encode_xte, encode_xte_state, splitlines.
    rewrite (splitlines_aux_snoc (List.length text)); [reflexivity|lia|].
    right. split; assumption. }
  rewrite E. split; reflexivity.
Qed.

Lemma trailing_newline_invariance_witness :
  of_string "ab" <> [] /\ is_linebreak (last (of_string "ab") 0%N) = false /\
  encode_xte (of_string "ab" ++ [10%N]) 2 3 = encode_xte (of_string "ab") 2 3 /\
  render (fst (encode_xte (of_string "ab" ++ [10%N]) 2 3))
    = render (fst (encode_xte (of_string "ab") 2 3)).
Proof.
  assert (Hne : of_string "ab" <> []) by discriminate.
  assert (Hl : is_linebreak (last (of_string "ab") 0%N) = false) by reflexivity.
  split; [exact Hne|split; [exact Hl|]].
  exact (trailing_newline_invariance (of_string "ab") 2 3 Hne Hl).
Defined.

(** C10 (as stated, refuted). The empty text does not end in a line break,
    yet it gives no [key Return] while "\n" gives one. *)
Lemma trailing_newline_counterexample :
  is_linebreak (last [] 0%N) = false /\
  fst (encode_xte [] 1 1) <> fst (encode_xte [10%N] 1 1).
Proof. split; [reflexivity|]. intros H. vm_compute in H. discriminate H. Qed.

(** ** Lemmas on the templates *)

Lemma dq_scan_app (st : lex_state) (l1 l2 : list N) :
  dq_scan st (l1 ++ l2) = dq_scan (dq_scan st l1) l2.
Proof. unfold dq_scan. apply fold_left_app. Qed.

Lemma dq_step_plain (c : N) : plain_char c = true -> dq_step InDq c = InDq.
Proof.
  unfold plain_char, dq_step, dq_char. intros H.
  destruct (is_dq c), ((c =? backtick)%N), ((c =? dollar)%N);
    try discriminate H; reflexivity.
Qed.

Lemma dq_scan_plain (x : list N) :
  forallb plain_char x = true -> dq_scan InDq x = InDq.
Proof.
  induction x as [|c r IH]; [reflexivity|].
  cbn [forallb]. intros H. apply andb_true_iff in H. destruct H as [Hc Hr].
  unfold dq_scan in *. cbn [fold_left]. rewrite (dq_step_plain c Hc).
  apply IH, Hr.
Qed.

Lemma b64_char_plain (c : N) : b64_char c = true -> plain_char c = true.
Proof.
  unfold plain_char. intros H.
  destruct (is_dq c) eqn:Hq.
  - unfold is_dq in Hq. apply existsb_exists in Hq.
    destruct Hq as [x [Hx Hcx]]. apply N.eqb_eq in Hcx. subst x.
    simpl in Hx. repeat destruct Hx as [<-|Hx]; try contradiction;
      discriminate H.
  - destruct ((c =? backtick)%N) eqn:Hb.
    + apply N.eqb_eq in Hb. subst c. discriminate H.
    + destruct ((c =? dollar)%N) eqn:Hd; [|reflexivity].
      apply N.eqb_eq in Hd. subst c. discriminate H.
Qed.

Lemma forallb_b64_plain (x : list N) :
  forallb b64_char x = true -> forallb plain_char x = true.
Proof.
  induction x as [|c r IH]; simpl; [reflexivity|].
  rewrite !andb_true_iff. intros [Hc Hr]. split; auto using b64_char_plain.
Qed.




(** ** Further properties *)

(** *** [splitlines] *)

Lemma splitlines_aux_no_break (n : nat) (s cur : list N) :
  (List.length s <= n)%nat ->
  forallb (fun c => negb (is_linebreak c)) cur = true ->
  forall line, In line (splitlines_aux cur s) ->
  forallb (fun c => negb (is_linebreak c)) line = true.
Proof.
  revert s cur. induction n as [|n IH]; intros s cur Hlen Hcur line Hin.
  - destruct s; [|simpl in Hlen; lia]. simpl in Hin.
    destruct (is_nil cur); [contradiction|].
    destruct Hin as [<-|[]]. rewrite forallb_forall in *.
    intros c Hc. apply Hcur. apply in_rev. exact Hc.
  - destruct s as [|c rest].
    + simpl in Hin. destruct (is_nil cur); [contradiction|].
      destruct Hin as [<-|[]]. rewrite forallb_forall in *.
      intros c Hc. apply Hcur. apply in_rev. exact Hc.
    + simpl in Hin, Hlen. destruct (is_linebreak c) eqn:Hc.
      * destruct Hin as [<-|Hin].
        -- rewrite forallb_forall in *. intros x Hx. apply Hcur.
           apply in_rev. exact Hx.
        -- refine (IH _ [] _ eq_refl line Hin).
           destruct ((c =? 13)%N); [|lia].
           destruct rest as [|d r]; [simpl; lia|].
           destruct ((d =? 10)%N); simpl in *; lia.
      * refine (IH rest (c :: cur) _ _ line Hin); [lia|].
        simpl. rewrite Hc, Hcur. reflexivity.
Qed.

Lemma splitlines_no_break (text line : list N) :
  In line (splitlines text) ->
  forallb (fun c => negb (is_linebreak c)) line = true.
Proof.
  apply (splitlines_aux_no_break (List.length text) text []); auto.
Qed.

Lemma splitlines_aux_line (line rest cur : list N) :
  forallb (fun c => negb (is_linebreak c)) line = true ->
  splitlines_aux cur (line ++ 10%N :: rest)
  = (rev cur ++ line) :: splitlines_aux [] rest.
Proof.
  revert cur. induction line as [|c l IH]; intros cur H; simpl.
  - rewrite app_nil_r. reflexivity.
  - simpl in H. apply andb_true_iff in H. destruct H as [Hc H].
    apply negb_true_iff in Hc. rewrite Hc, IH by exact H.
    simpl. rewrite <- app_assoc. reflexivity.
Qed.

Lemma splitlines_aux_split (n : nat) (s t cur : list N) :
  (List.length s <= n)%nat ->
  splitlines_aux cur (s ++ 10%N :: t)
  = splitlines_aux cur (s ++ [10%N]) ++ splitlines_aux [] t.
Proof.
  revert s cur. induction n as [|n IH]; intros s cur Hlen.
  - destruct s; [reflexivity|simpl in Hlen; lia].
  - destruct s as [|c s']; [reflexivity|].
    simpl in Hlen. simpl.
    destruct (is_linebreak c) eqn:Hc; [|apply IH; lia].
    simpl. f_equal.
    destruct ((c =? 13)%N).
    + destruct s' as [|d s'']; [reflexivity|].
      simpl. destruct ((d =? 10)%N);
        [apply IH | apply (IH (d :: s''))]; simpl in *; lia.
    + apply IH. lia.
Qed.

(** *** The key table *)

Lemma special_key_map_in (c : N) (spec : keyspec) :
  special_key_map c = Some spec -> In (c, spec) special_key_table.
Proof.
  unfold special_key_map. destruct (find _ _) as [[c' spec']|] eqn:E;
    [|discriminate].
  intros H. injection H as <-. apply find_some in E.
  destruct E as [Hin Heq]. simpl in Heq. apply N.eqb_eq in Heq. subst c'.
  exact Hin.
Qed.

(** Each mapped character is typed back by its own key: the key table is
    injective. *)
Lemma key_char_spec (c : N) (spec : keyspec) :
  special_key_map c = Some spec ->
  match spec with
  | Named k => key_char false k = [c]
  | Chord m k => m = "Shift_L"%string /\ key_char true k = [c]
  end.
Proof.
  intros H. apply special_key_map_in in H.
  unfold special_key_table in H.
  repeat (destruct H as [H|H]; [injection H as <- <-; vm_compute;
                                 try split; reflexivity|]).
  contradiction.
Qed.

Lemma special_key_return (c : N) :
  special_key_map c = Some (Named "Return") -> c = 10%N.
Proof.
  intros H. apply special_key_map_in in H. unfold special_key_table in H.
  repeat (destruct H as [H|H]; [injection H as H; try discriminate H;
                                 vm_compute in H; congruence|]).
  contradiction.
Qed.

(** *** Replaying the script *)

Lemma replay_char (sleep : Q) (c : N) (r : list instr) :
  replay_aux false (char_instrs sleep c ++ r) = c :: replay_aux false r.
Proof.
  unfold char_instrs. destruct (special_key_map c) as [spec|] eqn:E.
  - pose proof (key_char_spec c spec E) as K.
    destruct spec as [k|m k]; simpl.
    + rewrite K. reflexivity.
    + destruct K as [-> K]. simpl. rewrite K. reflexivity.
  - reflexivity.
Qed.

Lemma replay_line (sleep : Q) (line : list N) (r : list instr) :
  replay_aux false (line_instrs sleep line ++ r) = line ++ 10%N :: replay_aux false r.
Proof.
  unfold line_instrs. rewrite <- app_assoc.
  assert (Hc : forall r', replay_aux false (List.concat (map (char_instrs sleep) line) ++ r')
                          = line ++ replay_aux false r').
  { induction line as [|c l IH]; intros r'; simpl; [reflexivity|].
    rewrite <- app_assoc, replay_char, IH. reflexivity. }
  rewrite Hc. reflexivity.
Qed.

Lemma xte_typed_join (text : list N) (focus_delay sleep : Q) :
  xte_typed (fst (encode_xte text focus_delay sleep))
  = join_lines (splitlines text).
Proof.
  rewrite encode_xte_output. unfold xte_typed, join_lines. simpl.
  induction (splitlines text) as [|l ls IH]; simpl; [reflexivity|].
  rewrite replay_line, IH, <- app_assoc. reflexivity.
Qed.

(** Replaying the script with the meanings the script's own key table gives
    to the keys types every line of the text followed by a newline: no
    character is lost, reordered or mistyped. *)
Theorem xte_typed_encode (text : list N) (focus_delay sleep : Q) :
  xte_typed (fst (encode_xte text focus_delay sleep))
  = join_lines (splitlines text).
Proof. apply xte_typed_join. Qed.

(** *** Lines *)

(** [splitlines] never returns a line holding a line-break character. *)
Theorem splitlines_lines_unbroken (text line : list N) (c : N)
  (Hline : In line (splitlines text)) (Hc : In c line) :
  is_linebreak c = false.
Proof.
  pose proof (splitlines_no_break text line Hline) as H.
  rewrite forallb_forall in H. apply negb_true_iff, H, Hc.
Qed.

Lemma splitlines_lines_unbroken_witness :
  In (of_string "ab") (splitlines (of_string "x" ++ [13; 10]%N ++ of_string "ab")) /\
  In (ch "b") (of_string "ab") /\ is_linebreak (ch "b") = false.
Proof.
  assert (H1 : In (of_string "ab") (splitlines (of_string "x" ++ [13; 10]%N ++ of_string "ab")))
    by (right; left; reflexivity).
  assert (H2 : In (ch "b") (of_string "ab")) by (right; left; reflexivity).
  split; [exact H1|split; [exact H2|]].
  exact (splitlines_lines_unbroken _ _ _ H1 H2).
Defined.

(** Joining lines without line breaks, each terminated by "\n", and
    splitting the result gives the lines back. *)
Theorem splitlines_join (lines : list (list N))
  (Hlines : Forall (fun l => forallb (fun c => negb (is_linebreak c)) l = true) lines) :
  splitlines (join_lines lines) = lines.
Proof.
  unfold splitlines, join_lines.
  induction Hlines as [|l ls Hl Hls IH]; simpl; [reflexivity|].
  rewrite <- app_assoc. simpl.
  rewrite splitlines_aux_line by exact Hl. simpl. rewrite IH. reflexivity.
Qed.

Lemma splitlines_join_witness :
  Forall (fun l => forallb (fun c => negb (is_linebreak c)) l = true)
         [of_string "ab"; []; of_string "c d"] /\
  splitlines (join_lines [of_string "ab"; []; of_string "c d"])
  = [of_string "ab"; []; of_string "c d"].
Proof.
  assert (H : Forall (fun l => forallb (fun c => negb (is_linebreak c)) l = true)
                     [of_string "ab"; []; of_string "c d"])
    by (repeat constructor).
  split; [exact H|exact (splitlines_join _ H)].
Defined.

(** The script of [t1 ++ "\n" ++ t2] is the script of [t1 ++ "\n"]
    followed by the script of [t2] without its focus delay: lines are
    encoded independently of each other. *)
Theorem encode_xte_concat (t1 t2 : list N) (focus_delay sleep : Q) :
  fst (encode_xte (t1 ++ 10%N :: t2) focus_delay sleep)
  = fst (encode_xte (t1 ++ [10%N]) focus_delay sleep)
    ++ tl (fst (encode_xte t2 focus_delay sleep)).
Proof.
  rewrite !encode_xte_output. unfold splitlines.
  rewrite (splitlines_aux_split (List.length t1)) by lia.
  rewrite map_app, concat_app. reflexivity.
Qed.

(** *** Counts *)

Lemma char_instrs_counts (sleep : Q) (c : N) :
  is_linebreak c = false ->
  List.length (filter is_return (char_instrs sleep c)) = 0%nat /\
  List.length (filter is_usleep (char_instrs sleep c)) = 1%nat.
Proof.
  intros Hc. unfold char_instrs.
  destruct (special_key_map c) as [[k|m k]|] eqn:E; simpl;
    try (split; reflexivity);
    (destruct (String.eqb k "Return") eqn:Ek; simpl; [|split; reflexivity]);
    apply String.eqb_eq in Ek; subst k.
  - apply special_key_return in E. subst c. discriminate Hc.
  - apply special_key_map_in in E. unfold special_key_table in E.
    repeat (destruct E as [E|E]; [discriminate E|]). contradiction.
Qed.

(** The script has one [key Return] per line of the text, and one [usleep]
    for the focus delay, one per character and one per line. *)
Theorem encode_xte_counts (text : list N) (focus_delay sleep : Q) :
  List.length (filter is_return (fst (encode_xte text focus_delay sleep)))
    = List.length (splitlines text) /\
  List.length (filter is_usleep (fst (encode_xte text focus_delay sleep)))
    = S (List.length (splitlines text)
         + List.length (List.concat (splitlines text))).
Proof.
  rewrite encode_xte_output. simpl.
  assert (Hb := splitlines_no_break text).
  induction (splitlines text) as [|l ls IH]; simpl; [split; reflexivity|].
  destruct IH as [IH1 IH2]; [intros x Hx; apply Hb; right; exact Hx|].
  assert (Hl := Hb l (or_introl eq_refl)).
  rewrite !filter_app, !length_app, IH1.
  injection IH2 as IH2. rewrite IH2.
  unfold line_instrs. rewrite !filter_app, !length_app. simpl.
  assert (Hc : List.length (filter is_return (List.concat (map (char_instrs sleep) l))) = 0%nat /\
               List.length (filter is_usleep (List.concat (map (char_instrs sleep) l)))
               = List.length l).
  { clear IH1 IH2 Hb. induction l as [|c l' IHl]; simpl; [split; reflexivity|].
    simpl in Hl. apply andb_true_iff in Hl. destruct Hl as [Hc Hl].
    apply negb_true_iff in Hc.
    destruct (char_instrs_counts sleep c Hc) as [C1 C2].
    destruct (IHl Hl) as [D1 D2].
    rewrite !filter_app, !length_app, C1, C2, D1, D2. split; reflexivity. }
  destruct Hc as [-> ->]. rewrite ?length_app. lia.
Qed.

(** Every [str] line carries only characters that are neither in
    [special_key_map] nor line breaks. *)
Theorem encode_xte_str_chars (text : list N) (focus_delay sleep : Q)
  (s : list N) (c : N)
  (Hin : In (Str s) (fst (encode_xte text focus_delay sleep)))
  (Hc : In c s) :
  special_key_map c = None /\ is_linebreak c = false.
Proof.
  rewrite encode_xte_output in Hin.
  destruct Hin as [Hin|Hin]; [discriminate Hin|].
  apply in_concat in Hin. destruct Hin as [blk [Hblk Hin]].
  apply in_map_iff in Hblk. destruct Hblk as [line [<- Hline]].
  unfold line_instrs in Hin. apply in_app_or in Hin.
  destruct Hin as [Hin|[H|[H|[]]]]; try discriminate H.
  apply in_concat in Hin. destruct Hin as [ci [Hci Hin]].
  apply in_map_iff in Hci. destruct Hci as [c' [<- Hc']].
  unfold char_instrs in Hin.
  destruct (special_key_map c') as [[k|m k]|] eqn:E;
    repeat (destruct Hin as [H|Hin]; [try discriminate H|]); try contradiction.
  injection H as <-. destruct Hc as [<-|[]].
  split; [exact E|].
  pose proof (splitlines_no_break text line Hline) as Hb.
  rewrite forallb_forall in Hb. apply negb_true_iff, Hb, Hc'.
Qed.

Lemma encode_xte_str_chars_witness :
  In (Str [ch "a"]) (fst (encode_xte (of_string "a b") 1 1)) /\
  In (ch "a") [ch "a"] /\
  special_key_map (ch "a") = None /\ is_linebreak (ch "a") = false.
Proof.
  assert (H1 : In (Str [ch "a"]) (fst (encode_xte (of_string "a b") 1 1)))
    by (right; left; reflexivity).
  assert (H2 : In (ch "a") [ch "a"]) by (left; reflexivity).
  split; [exact H1|split; [exact H2|]].
  exact (encode_xte_str_chars _ 1 1 _ _ H1 H2).
Defined.

(** *** Serialisation *)

Lemma count_nl_app (a b : list N) : count_nl (a ++ b) = (count_nl a + count_nl b)%nat.
Proof. unfold count_nl. rewrite filter_app, length_app. reflexivity. Qed.

Lemma count_nl_cons (c : N) (s : list N) :
  count_nl (c :: s) = ((if (10 =? c)%N then 1 else 0) + count_nl s)%nat.
Proof. unfold count_nl. cbn [filter]. destruct (10 =? c)%N; reflexivity. Qed.

Lemma digits_aux_no_nl (fuel : nat) (n : N) (acc : list N) :
  count_nl acc = 0%nat -> count_nl (digits_aux fuel n acc) = 0%nat.
Proof.
  revert n acc. induction fuel as [|f IH]; intros n acc H; simpl; [exact H|].
  assert (Hd : count_nl ((48 + n mod 10)%N :: acc) = 0%nat).
  { rewrite count_nl_cons, H.
    destruct ((10 =? 48 + n mod 10)%N) eqn:E; [|reflexivity].
    apply N.eqb_eq in E. pose proof (N.le_add_r 48 (n mod 10)) as Hle.
    rewrite <- E in Hle. apply N.leb_le in Hle. discriminate Hle. }
  destruct ((n <? 10)%N); [exact Hd|apply IH, Hd].
Qed.

Lemma show_Z_no_nl (z : Z) : count_nl (show_Z z) = 0%nat.
Proof.
  unfold show_Z, show_N.
  destruct (z <? 0); [|apply digits_aux_no_nl; reflexivity].
  change (count_nl (ch "-" :: digits_aux (S (N.size_nat (Z.abs_N z))) (Z.abs_N z) []))
    with (count_nl (digits_aux (S (N.size_nat (Z.abs_N z))) (Z.abs_N z) [])).
  apply digits_aux_no_nl. reflexivity.
Qed.

Lemma render_instr_one_line (i : instr) :
  instr_one_line i -> count_nl (render_instr i) = 1%nat.
Proof.
  intros Hi. destruct i; unfold render_instr; rewrite !count_nl_app;
    cbn [instr_one_line] in Hi; [rewrite show_Z_no_nl | rewrite Hi ..];
    reflexivity.
Qed.

Lemma render_lines (l : list instr) :
  Forall instr_one_line l -> count_nl (render l) = List.length l.
Proof.
  induction 1 as [|i r Hi Hr IH]; [reflexivity|].
  unfold render in *. cbn [map List.concat]. rewrite count_nl_app, IH.
  rewrite (render_instr_one_line i Hi). reflexivity.
Qed.

Lemma table_names_one_line :
  forallb (fun kv => match snd kv with
                     | Named k => count_nl (of_string k) =? 0
                     | Chord m k => (count_nl (of_string m) =? 0)
                                    && (count_nl (of_string k) =? 0)
                     end)%nat special_key_table = true.
Proof. vm_compute. reflexivity. Qed.

(** The serialised script has exactly one line per instruction: no [str]
    text or key name contains a newline, so a line-oriented reader such as
    [xte] sees the instructions as written. *)
Theorem render_encode_xte_lines (text : list N) (focus_delay sleep : Q) :
  count_nl (render (fst (encode_xte text focus_delay sleep)))
  = List.length (fst (encode_xte text focus_delay sleep)).
Proof.
  apply render_lines. rewrite encode_xte_output.
  constructor; [exact I|].
  apply Forall_concat, Forall_map, Forall_forall. intros line Hline.
  unfold line_instrs. apply Forall_app. split; [|repeat constructor].
  apply Forall_concat, Forall_map, Forall_forall. intros c Hc.
  unfold char_instrs. destruct (special_key_map c) as [spec|] eqn:E.
  - apply special_key_map_in in E.
    pose proof table_names_one_line as T. rewrite forallb_forall in T.
    specialize (T _ E). simpl in T.
    destruct spec as [k|m k].
    + apply Nat.eqb_eq in T. repeat constructor; exact T.
    + apply andb_true_iff in T. destruct T as [T1 T2].
      apply Nat.eqb_eq in T1, T2. repeat constructor; assumption.
  - repeat constructor. cbn [instr_one_line].
    pose proof (splitlines_no_break text line Hline) as Hb.
    rewrite forallb_forall in Hb. specialize (Hb c Hc).
    rewrite count_nl_cons.
    destruct ((10 =? c)%N) eqn:E10; [|reflexivity].
    apply N.eqb_eq in E10. subst c. discriminate Hb.
Qed.

(** *** Base64 output of [compress_and_encode] *)

Lemma b64encode_length (l : list Z) :
  List.length (b64encode l) = (4 * ((List.length l + 2) / 3))%nat.
Proof.
  revert l. fix IH 1. intros l.
  destruct l as [|a [|b [|c rest]]]; try reflexivity.
  change (List.length (b64encode (a :: b :: c :: rest)))
    with (4 + List.length (b64encode rest))%nat.
  rewrite (IH rest). cbn [List.length].
  replace (S (S (S (List.length rest))) + 2)%nat
    with (List.length rest + 2 + 1 * 3)%nat by lia.
  rewrite Nat.div_add by lia. lia.
Qed.

Lemma sym_alphabet (n : Z) : 0 <= n < 64 -> val (sym n) <> None.
Proof. intros Hn. rewrite (val_sym n Hn). discriminate. Qed.

Lemma b64encode_shape (l : list Z) :
  Forall byte_range l ->
  exists body pads, b64encode l = body ++ pads /\
    Forall (fun c => val c <> None) body /\
    Forall (fun c => c = pad) pads /\ (List.length pads <= 2)%nat /\
    (pads <> [] -> List.length (body ++ pads) = (4 * ((List.length l + 2) / 3))%nat /\
                   (List.length l mod 3 <> 0)%nat).
Proof.
  revert l. fix IH 1. intros l Hl.
  destruct l as [|a [|b [|c rest]]].
  - exists [], []. split; [reflexivity|]. split; [constructor|].
    split; [constructor|]. split; [simpl; lia|].
    intros Hne. contradiction Hne. reflexivity.
  - byte_arith. exists [sym (a / 4); sym ((a mod 4) * 16)], [pad; pad].
    split; [reflexivity|].
    split; [repeat constructor; apply sym_alphabet; zarith|].
    split; [repeat constructor|]. split; [simpl; lia|].
    intros _. split; [reflexivity|simpl; discriminate].
  - byte_arith.
    exists [sym (a / 4); sym ((a mod 4) * 16 + b / 16); sym ((b mod 16) * 4)], [pad].
    split; [reflexivity|].
    split; [repeat constructor; apply sym_alphabet; zarith|].
    split; [repeat constructor|]. split; [simpl; lia|].
    intros _. split; [reflexivity|simpl; discriminate].
  - byte_arith. destruct (IH rest) as [body [pads [E [Hb [Hp [Hl Hn]]]]]];
      [assumption|].
    exists (sym (a / 4) :: sym ((a mod 4) * 16 + b / 16)
              :: sym ((b mod 16) * 4 + c / 64) :: sym (c mod 64) :: body), pads.
    split; [simpl; rewrite E; reflexivity|].
    split; [repeat constructor; try apply sym_alphabet; try zarith; exact Hb|].
    split; [exact Hp|split; [exact Hl|]].
    intros Hne. destruct (Hn Hne) as [HL Hm]. split.
    + rewrite <- b64encode_length. simpl. rewrite E. reflexivity.
    + cbn [List.length].
      replace (S (S (S (List.length rest))))%nat with (List.length rest + 1 * 3)%nat
        by lia.
      rewrite Nat.Div0.mod_add. exact Hm.
Qed.

(** The base64 text [compress_and_encode] produces: its length is four
    characters per started group of three bytes of the zlib stream (the
    DEFLATE output plus the 2-byte header and the 4-byte Adler-32 trailer),
    and, when the DEFLATE coder yields bytes, it is a run of characters of
    the alphabet [A-Za-z0-9+/] followed by at most two '=' paddings, present
    only when the stream length is not a multiple of three. *)
Theorem compress_and_encode_format (raw_deflate : list Z -> list Z)
  (data : list Z) (Hrange : Forall byte_range (raw_deflate data)) :
  List.length (compress_and_encode raw_deflate data)
    = (4 * ((List.length (raw_deflate data) + 8) / 3))%nat /\
  exists body pads, compress_and_encode raw_deflate data = body ++ pads /\
    Forall (fun c => val c <> None) body /\
    Forall (fun c => c = pad) pads /\ (List.length pads <= 2)%nat /\
    (pads <> [] -> ((List.length (raw_deflate data) + 6) mod 3 <> 0)%nat).
Proof.
  unfold compress_and_encode. split.
  - rewrite b64encode_length. unfold zlib_compress, zlib_header, be32.
    rewrite !length_app. cbn [List.length]. f_equal. f_equal. lia.
  - destruct (b64encode_shape _ (zlib_compress_range _ _ Hrange))
      as [body [pads [E [Hb [Hp [Hl Hn]]]]]].
    exists body, pads. repeat split; try assumption.
    intros Hne. destruct (Hn Hne) as [_ Hm].
    unfold zlib_compress, zlib_header, be32 in Hm.
    rewrite !length_app in Hm. cbn [List.length] in Hm.
    replace (List.length (raw_deflate data) + 6)%nat
      with (2 + (List.length (raw_deflate data) + 4))%nat by lia. exact Hm.
Qed.

Lemma compress_and_encode_format_witness :
  Forall byte_range (deflate_stored [7]) /\
  List.length (compress_and_encode deflate_stored [7]) = 24%nat.
Proof.
  assert (H : Forall byte_range (deflate_stored [7]))
    by (apply deflate_stored_range; repeat constructor; unfold byte_range; lia).
  split; [exact H|].
  rewrite (proj1 (compress_and_encode_format deflate_stored [7] H)).
  reflexivity.
Defined.

(** *** [path.basename] and the target file name *)

Lemma basename_fold_done (l acc : list N) :
  fold_left (fun (st : list N * bool) (c : N) =>
               let '(acc, done) := st in
               if done then (acc, true)
               else if (c =? ch "/")%N then (acc, true)
               else (c :: acc, false)) l (acc, true) = (acc, true).
Proof.
  induction l as [|c r IH]; cbn [fold_left]; [reflexivity|].
  cbv beta iota. exact IH.
Qed.

Lemma basename_fold (l acc : list N) :
  fst (fold_left (fun (st : list N * bool) (c : N) =>
                    let '(acc, done) := st in
                    if done then (acc, true)
                    else if (c =? ch "/")%N then (acc, true)
                    else (c :: acc, false)) l (acc, false))
  = rev (take_until_slash l) ++ acc.
Proof.
  revert acc. induction l as [|c r IH]; intros acc; cbn [fold_left];
    [reflexivity|].
  cbv beta iota. cbn [take_until_slash].
  destruct ((c =? ch "/")%N).
  - rewrite basename_fold_done. reflexivity.
  - rewrite IH. cbn [rev]. rewrite <- app_assoc. reflexivity.
Qed.

Lemma take_drop_slash (l : list N) :
  l = take_until_slash l ++ drop_until_slash l /\
  ~ In (ch "/") (take_until_slash l) /\
  (drop_until_slash l = [] \/ exists r, drop_until_slash l = ch "/" :: r).
Proof.
  induction l as [|c r [IHe [IHn IHd]]];
    cbn [take_until_slash drop_until_slash].
  - split; [reflexivity|split; [intros []|left; reflexivity]].
  - destruct ((c =? ch "/")%N) eqn:E.
    + apply N.eqb_eq in E. subst c.
      split; [reflexivity|split; [intros []|right; exists r; reflexivity]].
    + apply N.eqb_neq in E. split; [rewrite IHe at 1; reflexivity|split].
      * intros [H|H]; [exact (E H)|exact (IHn H)].
      * exact IHd.
Qed.

(** [path.basename(infile)], the default target file name of both drivers,
    is the part of [infile] after its last '/': it contains no '/', what
    precedes it in [infile] is empty or ends in '/', and an [infile] without
    '/' is its own basename. *)
Theorem basename_suffix (infile : list N) :
  (exists pre, infile = pre ++ basename infile /\
     (pre = [] \/ exists d, pre = d ++ [ch "/"])) /\
  ~ In (ch "/") (basename infile) /\
  (~ In (ch "/") infile -> basename infile = infile).
Proof.
  assert (Hb : basename infile = rev (take_until_slash (rev infile))).
  { unfold basename. rewrite basename_fold, app_nil_r. reflexivity. }
  destruct (take_drop_slash (rev infile)) as [E [Hn Hd]].
  assert (Hsplit : infile = rev (drop_until_slash (rev infile)) ++ basename infile).
  { rewrite Hb, <- rev_app_distr, <- E, rev_involutive. reflexivity. }
  split; [|split].
  - exists (rev (drop_until_slash (rev infile))). split; [exact Hsplit|].
    destruct Hd as [Hd|[r Hd]]; rewrite Hd; [left; reflexivity|].
    right. exists (rev r). reflexivity.
  - rewrite Hb. intros H. apply Hn. apply in_rev in H. exact H.
  - intros Hno. destruct Hd as [Hd|[r Hd]].
    + rewrite Hd in Hsplit. exact (eq_sym Hsplit).
    + exfalso. apply Hno. rewrite Hsplit, Hd. apply in_or_app. left.
      simpl. apply in_or_app. right. left. reflexivity.
Qed.


(** *** What the script types, against the text *)

Lemma join_splitlines_aux (text cur : list N) :
  (forall c, In c text -> is_linebreak c = true -> c = 10%N) ->
  join_lines (splitlines_aux cur text)
  = rev cur ++ text ++
    (if ends_in_newline text && (is_nil cur || negb (is_nil text))
     then [] else [10%N]).
Proof.
  unfold join_lines.
  revert cur. induction text as [|c rest IH]; intros cur Hb.
  - simpl. destruct cur as [|d cur']; simpl; [reflexivity|].
    rewrite app_nil_r. reflexivity.
  - assert (Hr : forall x, In x rest -> is_linebreak x = true -> x = 10%N)
      by (intros x Hx; apply Hb; right; exact Hx).
    cbn [splitlines_aux].
    destruct (is_linebreak c) eqn:Hc.
    + assert (E10 : c = 10%N) by (apply Hb; [left; reflexivity|exact Hc]).
      subst c. cbn [N.eqb Pos.eqb]. cbn [map List.concat].
      rewrite (IH [] Hr). cbn [rev app]. rewrite <- app_assoc. f_equal.
      cbn [app]. f_equal.
      destruct rest as [|d r]; simpl; rewrite ?orb_true_r; reflexivity.
    + rewrite (IH (c :: cur) Hr). cbn [rev]. rewrite <- app_assoc.
      cbn [app]. f_equal. f_equal.
      destruct rest as [|d r].
      * simpl. rewrite ?orb_true_r.
        destruct ((c =? 10)%N) eqn:E; [|reflexivity].
        apply N.eqb_eq in E. subst c. discriminate Hc.
      * simpl. rewrite ?orb_true_r. reflexivity.
Qed.

(** When "\n" is the only line-break character of the text, replaying the
    script types the text itself, followed by one "\n" when the text is
    not empty and does not already end in "\n". *)
Theorem xte_typed_text (text : list N) (focus_delay sleep : Q)
  (Hbreaks : forall c, In c text -> is_linebreak c = true -> c = 10%N) :
  xte_typed (fst (encode_xte text focus_delay sleep))
  = if ends_in_newline text then text else text ++ [10%N].
Proof.
  rewrite xte_typed_join. unfold splitlines.
  rewrite (join_splitlines_aux text [] Hbreaks). cbn [rev is_nil orb app].
  rewrite andb_true_r. destruct (ends_in_newline text);
    [apply app_nil_r|reflexivity].
Qed.

Lemma xte_typed_text_witness :
  (forall c, In c (of_string "ab" ++ [10%N] ++ of_string "c") ->
             is_linebreak c = true -> c = 10%N) /\
  xte_typed (fst (encode_xte (of_string "ab" ++ [10%N] ++ of_string "c") 1 1))
  = of_string "ab" ++ [10%N] ++ of_string "c" ++ [10%N].
Proof.
  assert (H : forall c, In c (of_string "ab" ++ [10%N] ++ of_string "c") ->
                        is_linebreak c = true -> c = 10%N).
  { intros c Hc Hl. simpl in Hc.
    repeat destruct Hc as [<-|Hc]; try contradiction; try reflexivity;
      discriminate Hl. }
  split; [exact H|].
  rewrite (xte_typed_text _ 1 1 H). reflexivity.
Defined.

(** ** The double-precision encoder *)

Lemma bind_ok {A B : Type} (m : res A) (f : A -> res B) (b : B) :
  bind m f = Ok b -> exists a, m = Ok a /\ f a = Ok b.
Proof. destruct m as [a|e]; simpl; [eauto|discriminate]. Qed.

Ltac ok_step H :=
  let a := fresh "a" in let Ha := fresh "Ha" in
  apply bind_ok in H; destruct H as [a [Ha H]].

Lemma utf8_app (a b : list N) :
  utf8 (a ++ b) = (x <- utf8 a;; y <- utf8 b;; Ok (x ++ y)).
Proof.
  induction a as [|c r IH]; simpl.
  - destruct (utf8 b); reflexivity.
  - destruct (utf8_char c) as [x|e]; simpl; [|reflexivity].
    rewrite IH. destruct (utf8 r) as [y|e]; simpl; [|reflexivity].
    destruct (utf8 b) as [z|e]; simpl; [|reflexivity].
    rewrite app_assoc. reflexivity.
Qed.

Lemma bytes_inv_write (l : Py.xline) (st : Py.xst) (b : list Z) :
  bytes_inv st -> utf8 (Py.xline_text l) = Ok b ->
  forall t buf,
  bytes_inv (Py.mk_xst (Py.lines st ++ [l]) (Py.bytes st ++ b) t buf).
Proof.
  unfold bytes_inv. intros H Hb t buf. cbn [Py.lines Py.bytes].
  rewrite map_app, concat_app. cbn [map List.concat]. rewrite app_nil_r.
  rewrite utf8_app, H, Hb. reflexivity.
Qed.

Lemma write_ok (l : Py.xline) (st st' : Py.xst) :
  Py.write l st = Ok st' ->
  Py.lines st' = Py.lines st ++ [l] /\
  Py.total_seconds st' = Py.total_seconds st /\
  Py.buffer st' = Py.buffer st /\ (bytes_inv st -> bytes_inv st').
Proof.
  unfold Py.write. intros H. ok_step H. injection H as <-.
  cbn [Py.lines Py.total_seconds Py.buffer].
  split; [reflexivity|split; [reflexivity|split; [reflexivity|]]].
  intros Hi. apply bytes_inv_write; assumption.
Qed.

Lemma xsleep_ok (sleep t : float) (st st' : Py.xst) :
  Py.xsleep sleep t st = Ok st' ->
  exists n, float_int ((t * sleep) * 1000000)%float = Ok n /\
    Py.lines st' = Py.lines st ++ [Py.XUsleep n] /\
    Py.total_seconds st' = (Py.total_seconds st + t * sleep)%float /\
    Py.buffer st' = Py.buffer st /\ (bytes_inv st -> bytes_inv st').
Proof.
  unfold Py.xsleep. intros H. ok_step H.
  destruct (write_ok _ _ _ H) as [Hl [Ht [Hb Hi]]].
  cbn [Py.lines Py.total_seconds Py.buffer] in Hl, Ht, Hb.
  exists a. split; [exact Ha|split; [exact Hl|split; [exact Ht|split; [exact Hb|]]]].
  intros H0. apply Hi. exact H0.
Qed.

Lemma usleep_values_app (l1 l2 : list Py.xline) :
  usleep_values (l1 ++ l2) = usleep_values l1 ++ usleep_values l2.
Proof. unfold usleep_values. rewrite map_app, concat_app. reflexivity. Qed.

Lemma usleep_values_char (c : N) (n : Z) : usleep_values (char_lines c n) = [n].
Proof.
  unfold char_lines. destruct (special_key_map c) as [[k|m k]|]; reflexivity.
Qed.

Lemma encode_char_ok (sleep : float) (st st' : Py.xst) (c : N) :
  Py.buffer st = [] -> Py.encode_char sleep st c = Ok st' ->
  exists n, float_int ((char_factor c * sleep) * 1000000)%float = Ok n /\
    Py.lines st' = Py.lines st ++ char_lines c n /\
    Py.total_seconds st' = (Py.total_seconds st + char_factor c * sleep)%float /\
    Py.buffer st' = [] /\ (bytes_inv st -> bytes_inv st').
Proof.
  intros Hbuf H. unfold Py.encode_char, char_factor, char_lines in *.
  destruct (special_key_map c) as [[k|m k]|].
  - rewrite Hbuf in H. cbn [is_nil bind] in H. ok_step H.
    destruct (write_ok _ _ _ Ha) as [Hl1 [Ht1 [Hb1 Hi1]]].
    destruct (xsleep_ok _ _ _ _ H) as [n [Hn [Hl [Ht [Hb Hi]]]]].
    exists n. split; [exact Hn|]. rewrite Hl, Ht, Hb, Hl1, Ht1, Hb1, Hbuf.
    rewrite <- app_assoc.
    split; [reflexivity|split; [reflexivity|split; [reflexivity|]]].
    intros H0. apply Hi, Hi1, H0.
  - rewrite Hbuf in H. cbn [is_nil bind] in H. ok_step H.
    ok_step Ha. ok_step Ha.
    destruct (write_ok _ _ _ Ha0) as [Hl1 [Ht1 [Hb1 Hi1]]].
    destruct (write_ok _ _ _ Ha1) as [Hl2 [Ht2 [Hb2 Hi2]]].
    destruct (write_ok _ _ _ Ha) as [Hl3 [Ht3 [Hb3 Hi3]]].
    destruct (xsleep_ok _ _ _ _ H) as [n [Hn [Hl [Ht [Hb Hi]]]]].
    exists n. split; [exact Hn|].
    rewrite Hl, Ht, Hb, Hl3, Ht3, Hb3, Hl2, Ht2, Hb2, Hl1, Ht1, Hb1, Hbuf.
    rewrite <- !app_assoc.
    split; [reflexivity|split; [reflexivity|split; [reflexivity|]]].
    intros H0. apply Hi, Hi3, Hi2, Hi1, H0.
  - ok_step H.
    destruct (write_ok _ _ _ Ha) as [Hl1 [Ht1 [Hb1 Hi1]]].
    destruct (xsleep_ok _ _ _ _ H) as [n [Hn [Hl [Ht [Hb Hi]]]]].
    exists n. split; [exact Hn|]. rewrite Hl, Ht, Hb, Hl1, Ht1, Hb1, Hbuf.
    rewrite <- app_assoc.
    split; [reflexivity|split; [reflexivity|split; [reflexivity|]]].
    intros H0. apply Hi, Hi1, H0.
Qed.

Lemma bytes_inv_set_buffer (b : list N) (st : Py.xst) :
  bytes_inv st -> bytes_inv (Py.set_buffer b st).
Proof. unfold bytes_inv, Py.set_buffer. cbn [Py.lines Py.bytes]. tauto. Qed.

Lemma fold_chars_ok (sleep : float) (line : list N) :
  forall st st', Py.buffer st = [] ->
  fold_res (Py.encode_char sleep) line st = Ok st' ->
  Py.buffer st' = [] /\
  map Ok (usleep_values (Py.lines st')) =
    map Ok (usleep_values (Py.lines st)) ++
    map (fun d => float_int (d * 1000000)%float)
        (map (fun t => (t * sleep)%float) (map char_factor line)) /\
  Py.total_seconds st' =
    fold_left PrimFloat.add (map (fun t => (t * sleep)%float) (map char_factor line))
      (Py.total_seconds st) /\
  (bytes_inv st -> bytes_inv st').
Proof.
  induction line as [|c line IH]; intros st st' Hbuf H.
  - cbn [fold_res] in H. injection H as <-. cbn [map fold_left].
    rewrite app_nil_r. tauto.
  - cbn [fold_res] in H. ok_step H.
    destruct (encode_char_ok _ _ _ _ Hbuf Ha) as [n [Hn [Hl [Ht [Hb Hi]]]]].
    destruct (IH _ _ Hb H) as [Hb' [Hu [Ht' Hi']]].
    split; [exact Hb'|split; [|split]].
    + rewrite Hu, Hl, usleep_values_app, usleep_values_char. cbn [map].
      rewrite Hn, map_app, <- app_assoc. reflexivity.
    + rewrite Ht', Ht. reflexivity.
    + intros H0. apply Hi', Hi, H0.
Qed.

Lemma encode_line_ok (sleep : float) (st st' : Py.xst) (line : list N) :
  Py.encode_line sleep st line = Ok st' ->
  map Ok (usleep_values (Py.lines st')) =
    map Ok (usleep_values (Py.lines st)) ++
    map (fun d => float_int (d * 1000000)%float)
        (map (fun t => (t * sleep)%float) (map char_factor line ++ [0.1%float])) /\
  Py.total_seconds st' =
    fold_left PrimFloat.add
      (map (fun t => (t * sleep)%float) (map char_factor line ++ [0.1%float]))
      (Py.total_seconds st) /\
  (bytes_inv st -> bytes_inv st').
Proof.
  unfold Py.encode_line. intros H. ok_step H.
  destruct (fold_chars_ok sleep line (Py.set_buffer [] st) a eq_refl Ha)
    as [Hb1 [Hu1 [Ht1 Hi1]]].
  ok_step H. rewrite Hb1 in Ha0. cbn [is_nil] in Ha0. injection Ha0 as <-.
  ok_step H.
  destruct (write_ok _ _ _ Ha0) as [Hl2 [Ht2 [Hb2 Hi2]]].
  destruct (xsleep_ok _ _ _ _ H) as [n [Hn [Hl [Ht [Hb Hi]]]]].
  split; [|split].
  - rewrite Hl, Hl2, !usleep_values_app, !map_app. rewrite Hu1.
    cbn [usleep_values Py.lines Py.set_buffer map List.concat app].
    rewrite Hn, !app_nil_r, <- app_assoc. reflexivity.
  - rewrite Ht, Ht2, Ht1, !map_app, fold_left_app. reflexivity.
  - intros H0. apply Hi, Hi2, Hi1, bytes_inv_set_buffer, H0.
Qed.

Lemma fold_lines_ok (sleep : float) (ls : list (list N)) :
  forall st st', fold_res (Py.encode_line sleep) ls st = Ok st' ->
  map Ok (usleep_values (Py.lines st')) =
    map Ok (usleep_values (Py.lines st)) ++
    map (fun d => float_int (d * 1000000)%float)
      (map (fun t => (t * sleep)%float)
         (List.concat (map (fun line => map char_factor line ++ [0.1%float]) ls))) /\
  Py.total_seconds st' =
    fold_left PrimFloat.add
      (map (fun t => (t * sleep)%float)
         (List.concat (map (fun line => map char_factor line ++ [0.1%float]) ls)))
      (Py.total_seconds st) /\
  (bytes_inv st -> bytes_inv st').
Proof.
  induction ls as [|line ls IH]; intros st st' H.
  - cbn [fold_res] in H. injection H as <-. cbn [map List.concat fold_left].
    rewrite app_nil_r. tauto.
  - cbn [fold_res] in H. ok_step H.
    destruct (encode_line_ok _ _ _ _ Ha) as [Hu [Ht Hi]].
    destruct (IH _ _ H) as [Hu' [Ht' Hi']].
    cbn [map List.concat]. rewrite !map_app.
    split; [|split].
    + rewrite Hu', Hu, !map_app, <- !app_assoc. reflexivity.
    + rewrite Ht', Ht, <- map_app, fold_left_app, map_app. reflexivity.
    + intros H0. apply Hi', Hi, H0.
Qed.

Lemma encode_xte_state_ok (text : list N) (fd sl : float) (st : Py.xst) :
  Py.encode_xte_state text fd sl = Ok st ->
  Py.total_seconds st = fold_left PrimFloat.add (durations text sl) fd /\
  map Ok (usleep_values (Py.lines st)) =
    map (fun d => float_int (d * 1000000)%float) (fd :: durations text sl) /\
  bytes_inv st.
Proof.
  unfold Py.encode_xte_state. intros H. ok_step H. ok_step H.
  destruct (write_ok _ _ _ Ha0) as [Hl0 [Ht0 [Hb0 Hi0]]].
  destruct (fold_lines_ok _ _ _ _ H) as [Hu [Ht Hi]].
  cbn [Py.lines Py.total_seconds] in Hl0, Ht0.
  unfold durations, sleep_factors.
  split; [|split].
  - rewrite Ht, Ht0. reflexivity.
  - rewrite Hu, Hl0. cbn [app usleep_values map List.concat]. rewrite Ha. reflexivity.
  - apply Hi, Hi0. reflexivity.
Qed.

(** ** Claim on the timing budget *)




(** ** Claim on failures of the [main] drivers *)




(** ** Successful runs of the [main] drivers *)

Lemma to_N_lt_128 (x : Z) : x < 128 -> (Z.to_N x < 128)%N.
Proof. intros H. destruct x as [|p|p]; cbn [Z.to_N]; lia. Qed.

Lemma sym_lt_128 (n : Z) : (sym n < 128)%N.
Proof.
  unfold sym.
  destruct (n <? 26) eqn:H1; [apply Z.ltb_lt in H1; apply to_N_lt_128; lia|].
  destruct (n <? 52) eqn:H2; [apply Z.ltb_lt in H2; apply to_N_lt_128; lia|].
  destruct (n <? 62) eqn:H3; [apply Z.ltb_lt in H3; apply to_N_lt_128; lia|].
  destruct (n =? 62); lia.
Qed.

Lemma ascii_not_surrogate (c : N) : (c < 128)%N -> is_surrogate c = false.
Proof.
  intros H. unfold is_surrogate.
  destruct (55296 <=? c)%N eqn:E; [|reflexivity].
  apply N.leb_le in E. lia.
Qed.

Lemma b64encode_no_surrogate (l : list Z) :
  forallb (fun c => negb (is_surrogate c)) (b64encode l) = true.
Proof.
  revert l. fix IH 1. intros l.
  destruct l as [|a [|b [|c rest]]]; cbn [b64encode forallb];
    rewrite ?ascii_not_surrogate by (apply sym_lt_128 || (unfold pad; lia));
    cbn [negb andb]; try reflexivity.
  apply IH.
Qed.

Lemma utf8_char_surrogate (c : N) :
  is_surrogate c = true -> utf8_char c = Raise UnicodeEncodeError.
Proof.
  intros H. unfold utf8_char. rewrite H.
  unfold is_surrogate in H. apply andb_true_iff in H. destruct H as [H _].
  apply N.leb_le in H.
  replace (Z.of_N c <? 128) with false by (symmetry; apply Z.ltb_ge; lia).
  replace (Z.of_N c <? 2048) with false by (symmetry; apply Z.ltb_ge; lia).
  reflexivity.
Qed.

Lemma utf8_char_ok (c : N) :
  is_surrogate c = false -> exists b, utf8_char c = Ok b.
Proof.
  intros H. unfold utf8_char. rewrite H.
  destruct (Z.of_N c <? 128); [eauto|].
  destruct (Z.of_N c <? 2048); [eauto|].
  destruct (Z.of_N c <? 65536); eauto.
Qed.

(** [str.encode()] succeeds exactly on the strings without a surrogate. *)
Lemma utf8_ok_iff (s : list N) :
  (exists b, utf8 s = Ok b) <-> forallb (fun c => negb (is_surrogate c)) s = true.
Proof.
  induction s as [|c s IH]; cbn [utf8 forallb].
  - split; [reflexivity|eauto].
  - destruct (is_surrogate c) eqn:Hs; cbn [negb andb].
    + rewrite (utf8_char_surrogate c Hs). cbn [bind].
      split; [intros [b H]; discriminate H|discriminate].
    + destruct (utf8_char_ok c Hs) as [b Hb]. rewrite Hb. cbn [bind].
      rewrite <- IH. destruct (utf8 s) as [t|e]; cbn [bind].
      * split; eauto.
      * split; [intros [x H]; discriminate H|intros [x H]; discriminate H].
Qed.

Lemma ps1_templates_no_surrogate :
  forallb (fun c => negb (is_surrogate c)) ExeToPs1.template_head = true /\
  forallb (fun c => negb (is_surrogate c)) ExeToPs1.template_mid = true /\
  forallb (fun c => negb (is_surrogate c)) ExeToPs1.template_tail = true.
Proof. vm_compute. repeat split. Qed.

Lemma write_output_exit (w : world) (outfile : list N) (content : res (list Z))
  (printed : list message) :
  exit_status (write_output w outfile content printed) = 0 <->
  outfile_open w = None /\ (exists d, content = Ok d) /\ outfile_write w = None /\
  forallb (fun c => negb (is_surrogate c)) outfile = true.
Proof.
  rewrite <- utf8_ok_iff. unfold write_output.
  destruct (outfile_open w) as [m|]; cbn [exit_status];
    [split; [discriminate|intros [H _]; discriminate H]|].
  destruct content as [d|e]; cbn [exit_status];
    [|split; [discriminate|intros [_ [[d H] _]]; discriminate H]].
  destruct (outfile_write w) as [[k m]|]; cbn [exit_status];
    [split; [discriminate|intros [_ [_ [H _]]]; discriminate H]|].
  destruct (utf8 outfile) as [b|e]; cbn [exit_status].
  - split; [intros _; eauto 6|reflexivity].
  - split; [discriminate|intros [_ [_ [_ [b H]]]]; discriminate H].
Qed.

(** The two drivers exit with status 0 exactly when the input file is read,
    the output file is opened and written, and every string the run
    encodes has no surrogate ([main_ps1]: the target file name and
    [outfile]) or [encode_xte] returns ([main_xte]); the file then holds
    the whole UTF-8 script (for [main_ps1]) or the bytes of [encode_xte],
    and stdout gets the estimate (for [main_xte]) and the confirmation. *)
Theorem main_exit_zero (rd : list Z -> list Z) (infile outfile : list N)
  (bin_name : option (list N)) (delay sleep : float) (w : world) :
  let fname := output_bin_name infile bin_name in
  let ok_text := forallb (fun c => negb (is_surrogate c)) in
  (exit_status (main_ps1 rd infile outfile bin_name w) = 0 <->
     infile_data w <> None /\ outfile_open w = None /\ outfile_write w = None /\
     ok_text fname = true /\ ok_text outfile = true) /\
  (exit_status (main_xte rd infile outfile bin_name delay sleep w) = 0 <->
     exists data b t, infile_data w = Some data /\
       Py.encode_xte (ExeToXte.generate_powershell_script
                        (compress_and_encode rd data) fname) delay sleep = Ok (b, t) /\
       outfile_open w = None /\ outfile_write w = None /\ ok_text outfile = true) /\
  (forall data, infile_data w = Some data -> outfile_open w = None ->
     outfile_write w = None -> ok_text outfile = true ->
     (forall b, utf8 (ExeToPs1.generate_powershell_script
                        (compress_and_encode rd data) fname) = Ok b ->
        main_ps1 rd infile outfile bin_name w = mk_outcome [Wrote outfile] [] 0 (Some b)) /\
     (forall b t, Py.encode_xte (ExeToXte.generate_powershell_script
                        (compress_and_encode rd data) fname) delay sleep = Ok (b, t) ->
        main_xte rd infile outfile bin_name delay sleep w =
          mk_outcome [Estimate t; Wrote outfile] [] 0 (Some b))).
Proof.
  cbv zeta. split; [|split].
  - unfold main_ps1. destruct (infile_data w) as [data|]; cbn [exit_status].
    + cbv zeta. rewrite write_output_exit.
      assert (E : (exists d, utf8 (ExeToPs1.generate_powershell_script
                     (compress_and_encode rd data) (output_bin_name infile bin_name))
                     = Ok d) <->
                  forallb (fun c => negb (is_surrogate c))
                    (output_bin_name infile bin_name) = true).
      { rewrite utf8_ok_iff. unfold ExeToPs1.generate_powershell_script.
        rewrite !forallb_app.
        destruct ps1_templates_no_surrogate as [H1 [H2 H3]].
        unfold compress_and_encode. rewrite H1, H2, H3, b64encode_no_surrogate.
        cbn [andb]. rewrite andb_true_r. reflexivity. }
      rewrite E. split.
      * intros [H1 [H2 [H3 H4]]]. repeat split; try assumption. discriminate.
      * intros [_ [H1 [H2 [H3 H4]]]]. repeat split; assumption.
    + split; [discriminate|intros [H _]; contradiction H; reflexivity].
  - unfold main_xte. destruct (infile_data w) as [data|]; cbn [exit_status].
    + cbv zeta.
      destruct (Py.encode_xte (ExeToXte.generate_powershell_script
                 (compress_and_encode rd data) (output_bin_name infile bin_name))
                 delay sleep) as [[b t]|e] eqn:E; cbn [exit_status].
      * rewrite write_output_exit. split.
        -- intros [H1 [_ [H3 H4]]]. exists data, b, t. repeat split; assumption.
        -- intros [d [b' [t' [Hd [He [H1 [H3 H4]]]]]]].
           repeat split; try assumption. eauto.
      * split; [discriminate|].
        intros [d [b' [t' [Hd [He _]]]]]. injection Hd as <-.
        rewrite E in He. discriminate He.
    + split; [discriminate|intros [d [b [t [H _]]]]; discriminate H].
  - intros data Hd Ho Hw Hs. split.
    + intros b Hb. unfold main_ps1. rewrite Hd. cbv zeta. rewrite Hb.
      unfold write_output. rewrite Ho, Hw.
      destruct (proj2 (utf8_ok_iff outfile) Hs) as [x Hx]. rewrite Hx. reflexivity.
    + intros b t Hb. unfold main_xte. rewrite Hd. cbv zeta. rewrite Hb.
      unfold write_output. rewrite Ho, Hw.
      destruct (proj2 (utf8_ok_iff outfile) Hs) as [x Hx]. rewrite Hx. reflexivity.
Qed.
